(** * shopping-example: the offer store, the catalog reconciler and the sync driver

    A shallow embedding of package [offers] (offer.go, db_mysql.go, config.go
    and the update pipeline that follows it in the same source unit) and the
    properties of its specification.

    Conventions of the embedding.
    - A Go [string] is a Rocq [string] (a sequence of bytes).
    - A Go [error] is a value of [error]; [nil] is [None] in an
      [option error], and a [(T, error)] pair is a [Result T].
    - The MySQL server is explicit state: the rows of table [offers] in
      primary-key order, the AUTO_INCREMENT counter, the collation of the
      [offerId] column, what the server stores of a value bound to a column
      of a given type, and a script of failures.  Every statement execution
      consumes one entry of the script; an entry [Some e] makes that
      execution fail with [e] and leaves the table alone.  A failure is a
      fault of the connection or a statement the server rejects: under a
      strict sql_mode a value too long for its column (error 1406) or not
      a string of the column character set (error 1366).  A statement the
      server accepts stores each value as the server keeps it, which is the
      value itself only when it fits the column.
    - Calls made by the pipeline to the store and to the Content API are
      recorded, in order, in a ghost log carried next to the store.
    - [log.Fatal] ends the process and a nil dereference panics: both are
      outcomes of the pipeline functions, next to a normal return. *)

From Stdlib Require Import String Ascii List ZArith NArith Bool Lia DecimalString.
Import ListNotations.
Open Scope string_scope.

(* ================================================================= *)
(** ** Errors and results *)

Inductive error : Type :=
| ErrBadConn                                   (* driver.ErrBadConn *)
| ErrNoRows                                    (* sql.ErrNoRows *)
| MySQLError (Number : N) (Message : string)   (* mysql.MySQLError *)
| APIError (Code : Z) (Message : string)       (* googleapi.Error *)
| ErrArgCount (want got : nat)                 (* database/sql: expected %d arguments, got %d *)
| OtherError (msg : string)                    (* any other error of a library *)
| New (text : string)                          (* errors.New *)
| Errorf (text : string)                       (* fmt.Errorf(text) *)
| Errorf_v (format : string) (cause : error)   (* fmt.Errorf(format, err) *)
| Errorf_d (format : string) (n : Z)           (* fmt.Errorf(format, int) *)
| Errorf_s (format : string) (s : string).     (* fmt.Errorf(format, string) *)

Inductive Result (T : Type) : Type :=
| Ok (v : T)
| Err (e : error).
Arguments Ok {T} v.
Arguments Err {T} e.

Definition isOk {T} (r : Result T) : bool :=
  match r with Ok _ => true | Err _ => false end.

Definition isNil (e : option error) : bool :=
  match e with None => true | Some _ => false end.

(* ================================================================= *)
(** ** Package strings: ToLower and Contains *)

Definition RuneSelf : nat := 128.

Definition isUpperByte (c : ascii) : bool :=
  (65 <=? nat_of_ascii c)%nat && (nat_of_ascii c <=? 90)%nat.

(** [c += 'a' - 'A'] on an upper-case byte. *)
Definition lowerByte (c : ascii) : ascii :=
  if isUpperByte c then ascii_of_nat (nat_of_ascii c + 32) else c.

Fixpoint isASCII (s : string) : bool :=
  match s with
  | EmptyString => true
  | String c s' => (nat_of_ascii c <? RuneSelf)%nat && isASCII s'
  end.

Fixpoint hasUpper (s : string) : bool :=
  match s with
  | EmptyString => false
  | String c s' => isUpperByte c || hasUpper s'
  end.

Fixpoint mapBytes (f : ascii -> ascii) (s : string) : string :=
  match s with
  | EmptyString => EmptyString
  | String c s' => String (f c) (mapBytes f s')
  end.

Section GoStrings.

(** [strings.Map(unicode.ToLower, s)], the path [strings.ToLower] takes on a
    string with a byte outside ASCII.  The Unicode tables are not part of the
    development: every statement below holds for whatever they contain. *)
Variable unicodeToLower : string -> string.

(** strings.ToLower: the ASCII fast path is per byte. *)
Definition ToLower (s : string) : string :=
  if isASCII s then
    if hasUpper s then mapBytes lowerByte s else s
  else unicodeToLower s.

End GoStrings.

(** strings.Contains(s, substr): [substr] occurs in [s] at some offset. *)
Fixpoint Contains (s substr : string) : bool :=
  String.prefix substr s ||
  match s with
  | EmptyString => false
  | String _ s' => Contains s' substr
  end.

(* ================================================================= *)
(** ** offer.go: the Offer value *)

Record Offer : Type := mkOffer {
  ID : string;
  Title : string;
  Price : string;
  Currency : string;
  ImageURL : string;
  Description : string;
  MerchantURL : string
}.

(* ================================================================= *)
(** ** The table made by createTableStatements *)

Definition createTableStatements : list string :=
  [ "CREATE DATABASE IF NOT EXISTS library DEFAULT CHARACTER SET = 'utf8' DEFAULT COLLATE 'utf8_general_ci';";
    "USE library;";
    "CREATE TABLE IF NOT EXISTS offers (
		id INT UNSIGNED NOT NULL AUTO_INCREMENT,
		offerId VARCHAR(255) NOT NULL,
		title VARCHAR(255) NULL,
		price VARCHAR(255) NULL,
		currency VARCHAR(255) NULL,
		imageUrl VARCHAR(255) NULL,
		description TEXT NULL,
		merchantUrl VARCHAR(255) NULL,
		updated BOOLEAN NOT NULL default 1,
		PRIMARY KEY (id)
	)" ].

(** One row of table [offers]; a NULL column is [None]. *)
Module col.
Record Row : Type := mkRow {
  id : N;
  offerId : string;
  title : option string;
  price : option string;
  currency : option string;
  imageUrl : option string;
  description : option string;
  merchantUrl : option string;
  updated : bool
}.
End col.
Definition Row : Type := col.Row.

(** The types of the string columns of [offers]: [VARCHAR(n)] holds up to n
    characters, [TEXT] up to 65535 bytes; the character set is utf8, whose
    characters take one to three bytes. *)
Inductive ColumnType : Type :=
| VARCHAR (n : N)
| TEXT.
Arguments VARCHAR n%_N.

(** sql.NullString.String: the empty string for NULL. *)
Definition NullString_String (v : option string) : string :=
  match v with Some s => s | None => "" end.

(* ================================================================= *)
(** ** The server behind a mysqlDB handle *)

Record mysqlDB : Type := mkDB {
  table : list Row;                       (* rows of offers, in primary-key order *)
  auto_increment : N;                     (* next value of column id *)
  collate : string -> string -> bool;     (* equality of the offerId collation *)
  stores : ColumnType -> string -> string;
                                          (* what an accepted statement leaves
                                             of a value in a column *)
  faults : list (option error)            (* what the next executions meet:
                                             a fault of the connection or a
                                             rejection by the server *)
}.

Definition set_table (t : list Row) (db : mysqlDB) : mysqlDB :=
  mkDB t (auto_increment db) (collate db) (stores db) (faults db).

Definition set_faults (f : list (option error)) (db : mysqlDB) : mysqlDB :=
  mkDB (table db) (auto_increment db) (collate db) (stores db) f.

(** The failure met by the next execution, if any. *)
Definition next_fault (db : mysqlDB) : option error * mysqlDB :=
  match faults db with
  | [] => (None, db)
  | f :: fs => (f, set_faults fs db)
  end.

(** The five statements prepared by newMySQLDB. *)
Inductive Stmt : Type := list_ | get | insert | update | delete.

Definition listStatement : string := "SELECT * FROM offers limit 50".

Definition getStatement : string := "SELECT * FROM offers WHERE offerId = ?".

Definition insertStatement : string := "
  INSERT INTO offers (
    offerId, title, price, currency, imageUrl, description, merchantUrl
  ) VALUES (?, ?, ?, ?, ?, ?, ?)".

Definition deleteStatement : string := "DELETE FROM offers WHERE updated = false".

Definition updateStatement : string := "
  UPDATE offers
  SET offerId=?, title=?, price=?, currency=?, imageUrl=?,
	description=?, merchantUrl=?,
	updated = true WHERE id = ?".

Definition query (st : Stmt) : string :=
  match st with
  | list_ => listStatement
  | get => getStatement
  | insert => insertStatement
  | update => updateStatement
  | delete => deleteStatement
  end.

Fixpoint countByte (c : ascii) (s : string) : nat :=
  match s with
  | EmptyString => 0
  | String c' s' => (if Ascii.eqb c c' then 1 else 0) + countByte c s'
  end.

(** driver.Stmt.NumInput: the number of placeholders of the statement. *)
Definition NumInput (st : Stmt) : nat := countByte "?"%char (query st).

(** sql.Result as the MySQL driver fills it; its LastInsertId and
    RowsAffected methods never return an error. *)
Record sqlResult : Type := mkResult {
  LastInsertId : Z;
  RowsAffected : Z
}.

(** The number a string bound to a numeric column compares as. *)
Definition numeric (s : string) : option N :=
  match NilEmpty.uint_of_string s with
  | Some u => Some (N.of_uint u)
  | None => None
  end.

Definition row_values (r : Row) : list (option string) :=
  [ Some (col.offerId r); col.title r; col.price r; col.currency r;
    col.imageUrl r; col.description r; col.merchantUrl r ].

(** UPDATE ... SET ..., updated = true on one row. *)
Definition assign (oid t p c i d m : string) (r : Row) : Row :=
  col.mkRow (col.id r) oid (Some t) (Some p) (Some c) (Some i) (Some d) (Some m) true.

Definition same_row (r r' : Row) : bool :=
  Bool.eqb (col.updated r) (col.updated r') &&
  forallb (fun p => match p with
                    | (Some a, Some b) => String.eqb a b
                    | (None, None) => true
                    | _ => false
                    end)
          (combine (row_values r) (row_values r')).

(** What the server does with a statement whose parameters are all bound and
    which it accepts.  The seven string columns hold what the server keeps of
    the bound values: [offerId], [title], [price], [currency], [imageUrl] and
    [merchantUrl] are VARCHAR(255), [description] is TEXT. *)
Definition execute (st : Stmt) (args : list string) (db : mysqlDB)
  : sqlResult * mysqlDB :=
  let v := stores db (VARCHAR 255) in
  let x := stores db TEXT in
  match st, args with
  | insert, [oid; t; p; c; i; d; m] =>
      let r := col.mkRow (auto_increment db) (v oid) (Some (v t)) (Some (v p))
                         (Some (v c)) (Some (v i)) (Some (x d)) (Some (v m))
                         true in
      (mkResult (Z.of_N (auto_increment db)) 1,
       mkDB (table db ++ [r]) (auto_increment db + 1) (collate db) (stores db)
            (faults db))
  | delete, [] =>
      let kept := filter col.updated (table db) in
      (mkResult 0 (Z.of_nat (length (table db) - length kept)),
       set_table kept db)
  | update, [oid; t; p; c; i; d; m; key] =>
      let hit r := match numeric key with
                   | Some n => N.eqb (col.id r) n
                   | None => false
                   end in
      let upd r := assign (v oid) (v t) (v p) (v c) (v i) (x d) (v m) r in
      let changed := filter (fun r => hit r && negb (same_row r (upd r)))
                            (table db) in
      (mkResult 0 (Z.of_nat (length changed)),
       set_table (map (fun r => if hit r then upd r else r) (table db)) db)
  | _, _ => (mkResult 0 0, db)
  end.

(** The rows a SELECT returns. *)
Definition select (st : Stmt) (args : list string) (db : mysqlDB) : list Row :=
  match st, args with
  | list_, [] => firstn 50 (table db)
  | get, [key] => filter (fun r => collate db (col.offerId r) key) (table db)
  | _, _ => []
  end.

(** sql.Stmt.Exec: take a connection, check the argument count against
    NumInput, then run the statement. *)
Definition Stmt_Exec (st : Stmt) (args : list string) (db : mysqlDB)
  : Result sqlResult * mysqlDB :=
  let (f, db1) := next_fault db in
  match f with
  | Some e => (Err e, db1)
  | None =>
      if (NumInput st =? length args)%nat then
        let (r, db2) := execute st args db1 in (Ok r, db2)
      else (Err (ErrArgCount (NumInput st) (length args)), db1)
  end.

(** sql.Stmt.Query, read to the end. *)
Definition Stmt_Query (st : Stmt) (args : list string) (db : mysqlDB)
  : Result (list Row) * mysqlDB :=
  let (f, db1) := next_fault db in
  match f with
  | Some e => (Err e, db1)
  | None =>
      if (NumInput st =? length args)%nat then (Ok (select st args db1), db1)
      else (Err (ErrArgCount (NumInput st) (length args)), db1)
  end.

(** sql.Stmt.QueryRow: the first row, or ErrNoRows at Scan time. *)
Definition Stmt_QueryRow (st : Stmt) (args : list string) (db : mysqlDB)
  : Result Row * mysqlDB :=
  let (r, db1) := Stmt_Query st args db in
  match r with
  | Err e => (Err e, db1)
  | Ok [] => (Err ErrNoRows, db1)
  | Ok (row :: _) => (Ok row, db1)
  end.

(* ================================================================= *)
(** ** db_mysql.go: the store operations *)

(** The Offer built from the scanned columns. *)
Definition offer_of_row (r : Row) : Offer :=
  {| ID := col.offerId r;
     Title := NullString_String (col.title r);
     Price := NullString_String (col.price r);
     Currency := NullString_String (col.currency r);
     ImageURL := NullString_String (col.imageUrl r);
     Description := NullString_String (col.description r);
     MerchantURL := NullString_String (col.merchantUrl r) |}.

(** scanOffer reads an offer from a sql.Row or the current row of sql.Rows. *)
Definition scanOffer (s : Result Row) : Result Offer :=
  match s with
  | Err err => Err err
  | Ok r => Ok (offer_of_row r)
  end.

(** The loop [for rows.Next() { offer, err := scanOffer(rows) ... }], keeping
    the offers [keep] accepts. *)
Fixpoint scan_rows (keep : Offer -> bool) (rows : list Row) : Result (list Offer) :=
  match rows with
  | [] => Ok []
  | r :: rest =>
      match scanOffer (Ok r) with
      | Err err => Err (Errorf_v "mysql: could not read row: %v" err)
      | Ok offer =>
          match scan_rows keep rest with
          | Err e => Err e
          | Ok offers => Ok (if keep offer then offer :: offers else offers)
          end
      end
  end.

Definition ListOffers (db : mysqlDB) : Result (list Offer) * mysqlDB :=
  let (rows, db1) := Stmt_Query list_ [] db in
  match rows with
  | Err err => (Err err, db1)
  | Ok rows => (scan_rows (fun _ => true) rows, db1)
  end.

Section Search.

Variable unicodeToLower : string -> string.

Definition matches (s : string) (offer : Offer) : bool :=
  Contains (ToLower unicodeToLower (Description offer)) (ToLower unicodeToLower s).

Definition SearchOffers (s : string) (db : mysqlDB) : Result (list Offer) * mysqlDB :=
  let (rows, db1) := Stmt_Query list_ [] db in
  match rows with
  | Err err => (Err err, db1)
  | Ok rows =>
      match scan_rows (matches s) rows with
      | Err e => (Err e, db1)
      | Ok [] => (Err (Errorf_s "mysql: could not find offer with description %s" s), db1)
      | Ok offers => (Ok offers, db1)
      end
  end.

End Search.

Definition GetOffer (id : string) (db : mysqlDB) : Result Offer * mysqlDB :=
  let (row, db1) := Stmt_QueryRow get [id] db in
  match scanOffer row with
  | Err ErrNoRows => (Err (Errorf_s "mysql: could not find offer with id %s" id), db1)
  | Err err => (Err (Errorf_v "mysql: could not get offer: %v" err), db1)
  | Ok offer => (Ok offer, db1)
  end.

(** execAffectingOneRow executes a statement, expecting one row to be affected. *)
Definition execAffectingOneRow (st : Stmt) (args : list string) (db : mysqlDB)
  : Result sqlResult * mysqlDB :=
  let (r, db1) := Stmt_Exec st args db in
  match r with
  | Err err => (Err (Errorf_v "mysql: could not execute statement: %v" err), db1)
  | Ok r =>
      if (RowsAffected r =? 1)%Z then (Ok r, db1)
      else (Err (Errorf_d "mysql: expected 1 row affected, got %d" (RowsAffected r)), db1)
  end.

Definition AddOffer (o : Offer) (db : mysqlDB) : Result Z * mysqlDB :=
  let (r, db1) := execAffectingOneRow insert
                    [ID o; Title o; Price o; Currency o; ImageURL o;
                     Description o; MerchantURL o] db in
  match r with
  | Err err => (Err err, db1)
  | Ok r => (Ok (LastInsertId r), db1)
  end.

Definition DeleteOffers (db : mysqlDB) : option error * mysqlDB :=
  let (r, db1) := Stmt_Exec delete [] db in
  match r with
  | Err err => (Some (Errorf_v "mysql: could not execute delete statement: %v" err), db1)
  | Ok _ => (None, db1)
  end.

Definition UpdateOffer (o : Offer) (db : mysqlDB) : option error * mysqlDB :=
  if String.eqb (ID o) "" then
    (Some (New "mysql: offer with unassigned ID passed into updateOffer"), db)
  else
    let (r, db1) := execAffectingOneRow update
                      [ID o; Title o; Price o; Currency o; ImageURL o;
                       Description o; MerchantURL o] db in
    match r with
    | Err err => (Some err, db1)
    | Ok _ => (None, db1)
    end.

(* ================================================================= *)
(** ** The Content API as the pipeline sees it *)

Module content.

Module Price.
Record t : Type := mk { Value : string; Currency : string }.
End Price.

(** [Price] is a pointer in the API type: [None] is nil. *)
Module Product.
Record t : Type := mk {
  Id : string;
  Title : string;
  Price : option Price.t;
  ImageLink : string;
  Description : string;
  Link : string
}.
End Product.

Module Account.
Record t : Type := mk { Id : Z }.            (* uint64 *)
End Account.

Module AccountIdentifier.
Record t : Type := mk { AggregatorId : Z; MerchantId : Z }.   (* uint64 *)
End AccountIdentifier.

Module ProductsListResponse.
Record t : Type := mk { Resources : list Product.t }.
End ProductsListResponse.

Module AccountsListResponse.
Record t : Type := mk { Resources : list Account.t }.
End AccountsListResponse.

Module AccountsAuthInfoResponse.
Record t : Type := mk { AccountIdentifiers : list AccountIdentifier.t }.
End AccountsAuthInfoResponse.

(** What the successive [Do] calls of one list call return.  The page token
    is the position in the feed: [LastPage] is a response whose
    NextPageToken is empty. *)
Inductive Feed (R : Type) : Type :=
| DoFails (err : error)
| LastPage (x : R)
| NextPage (x : R) (rest : Feed R).
Arguments DoFails {R} err.
Arguments LastPage {R} x.
Arguments NextPage {R} x rest.

Record APIService : Type := mkService {
  Accounts_Authinfo : Result AccountsAuthInfoResponse.t;
  Accounts_Get : Z -> Z -> Result Account.t;
  Accounts_List : Z -> Feed AccountsListResponse.t;
  Products_List : Z -> Feed ProductsListResponse.t
}.

End content.

(** Conversions between int64 and uint64, both kept in [Z]. *)
Definition int64 (x : Z) : Z :=
  let r := (x mod 2 ^ 64)%Z in
  if (r <? 2 ^ 63)%Z then r else (r - 2 ^ 64)%Z.

Definition uint64 (x : Z) : Z := (x mod 2 ^ 64)%Z.

(* ================================================================= *)
(** ** The state the pipeline runs in *)

(** Ghost log: the calls made through [DB] and to the Content API. *)
Inductive Event : Type :=
| CallGetOffer (id : string) (ok : bool)
| CallUpdateOffer (id : string) (ok : bool)
| CallAddOffer (id : string) (ok : bool)
| CallDeleteOffers (ok : bool)
| ApiAuthinfo (ok : bool)
| ApiAccountsGet (account : Z) (ok : bool)
| ApiAccountsList (merchant : Z) (ok : bool)
| ApiProductsList (merchant : Z) (ok : bool).

Record World : Type := mkWorld {
  DB : mysqlDB;
  calls : list Event
}.

Definition record (e : Event) (w : World) : World :=
  mkWorld (DB w) (calls w ++ [e]).

Inductive Fatal : Type :=
| Fatal_msg (text : string)                    (* log.Fatal(text) *)
| Fatal_err (e : error)                        (* log.Fatal(err) *)
| Fatalf_s (format : string) (s : string)      (* log.Fatalf(format, string) *)
| Fatalf_v (format : string) (e : error).      (* log.Fatalf(format, err.Error()) *)

Inductive Outcome (A : Type) : Type :=
| Ret (a : A)                  (* the function returned *)
| Panicked (msg : string)      (* a run-time panic unwinds the stack *)
| Exited (f : Fatal).          (* log.Fatal: the process is gone *)
Arguments Ret {A} a.
Arguments Panicked {A} msg.
Arguments Exited {A} f.

Definition Pipeline (A : Type) : Type := World -> Outcome A * World.

Definition DB_GetOffer (id : string) (w : World) : Result Offer * World :=
  let (r, db) := GetOffer id (DB w) in
  (r, mkWorld db (calls w ++ [CallGetOffer id (isOk r)])).

Definition DB_UpdateOffer (o : Offer) (w : World) : option error * World :=
  let (r, db) := UpdateOffer o (DB w) in
  (r, mkWorld db (calls w ++ [CallUpdateOffer (ID o) (isNil r)])).

Definition DB_AddOffer (o : Offer) (w : World) : Result Z * World :=
  let (r, db) := AddOffer o (DB w) in
  (r, mkWorld db (calls w ++ [CallAddOffer (ID o) (isOk r)])).

Definition DB_DeleteOffers (w : World) : option error * World :=
  let (r, db) := DeleteOffers (DB w) in
  (r, mkWorld db (calls w ++ [CallDeleteOffers (isNil r)])).

(* ================================================================= *)
(** ** The update pipeline *)

(** The body of the loop of updateProducts for one product: [Ret None] goes
    on to the next product, [Ret (Some err)] is [return err]. *)
Definition updateProduct (product : content.Product.t) : Pipeline (option error) :=
  fun w =>
  match content.Product.Price product with
  | None => (Panicked "invalid memory address or nil pointer dereference", w)
  | Some price =>
      let id := content.Product.Id product in
      let o := {| ID := content.Product.Id product;
                  Title := content.Product.Title product;
                  Price := content.Price.Value price;
                  Currency := content.Price.Currency price;
                  ImageURL := content.Product.ImageLink product;
                  Description := content.Product.Description product;
                  MerchantURL := content.Product.Link product |} in
      let (got, w1) := DB_GetOffer id w in
      let w2 := match got with
                | Ok _ => snd (DB_UpdateOffer o w1)
                | Err _ => w1
                end in
      let (added, w3) := DB_AddOffer o w2 in
      match added with
      | Err err => (Ret (Some err), w3)
      | Ok _ => (Ret None, w3)
      end
  end.

Fixpoint range_products (products : list content.Product.t) : Pipeline (option error) :=
  fun w =>
  match products with
  | [] => (Ret None, w)
  | product :: rest =>
      match updateProduct product w with
      | (Ret None, w1) => range_products rest w1
      | stop => stop
      end
  end.

Definition updateProducts (res : content.ProductsListResponse.t) : Pipeline (option error) :=
  fun w =>
  match range_products (content.ProductsListResponse.Resources res) w with
  | (Ret None, w1) => let (err, w2) := DB_DeleteOffers w1 in (Ret err, w2)
  | stop => stop
  end.

(** The generated [Pages] method of a list call: fetch, hand the page to [f],
    stop at the first error or at an empty NextPageToken. *)
Fixpoint Pages {R : Type} (fetched : bool -> Event) (f : R -> Pipeline (option error))
         (c : content.Feed R) : Pipeline (option error) :=
  fun w =>
  match c with
  | content.DoFails err => (Ret (Some err), record (fetched false) w)
  | content.LastPage x => f x (record (fetched true) w)
  | content.NextPage x rest =>
      match f x (record (fetched true) w) with
      | (Ret None, w1) => Pages fetched f rest w1
      | stop => stop
      end
  end.

Section Update.

Variable service : content.APIService.

Definition updateProductsList (account : content.Account.t) : Pipeline (option error) :=
  fun w =>
  let id := content.Account.Id account in
  match Pages (ApiProductsList id) updateProducts (content.Products_List service id) w with
  | (Ret _, w1) => (Ret None, w1)
  | stop => stop
  end.

Fixpoint range_accounts (accounts : list content.Account.t) : Pipeline (option error) :=
  fun w =>
  match accounts with
  | [] => (Ret None, w)
  | a :: rest =>
      match updateProductsList a w with
      | (Ret _, w1) => range_accounts rest w1
      | stop => stop
      end
  end.

Definition updateAccountTables (res : content.AccountsListResponse.t) : Pipeline (option error) :=
  range_accounts (content.AccountsListResponse.Resources res).

Definition updateOffersData (account : content.Account.t) (isMCA : bool) : Pipeline unit :=
  fun w =>
  let id := content.Account.Id account in
  match
    (if negb isMCA then updateProductsList account w
     else Pages (ApiAccountsList id) updateAccountTables (content.Accounts_List service id) w)
  with
  | (Ret _, w1) => (Ret tt, w1)
  | (Panicked msg, w1) => (Panicked msg, w1)
  | (Exited f, w1) => (Exited f, w1)
  end.

Definition dumpAPIErrorAndStop {A} (e : error) (prefix : string) : Pipeline A :=
  fun w =>
  match e with
  | APIError _ _ => (Exited (Fatal_msg "Error from API, halting demos"), w)
  | _ => (Exited (Fatal_err e), w)
  end.

(** The loop labelled CheckAccounts. *)
Fixpoint CheckAccounts (id : Z) (ids : list content.AccountIdentifier.t) : bool :=
  match ids with
  | [] => false
  | i :: rest =>
      if (id =? int64 (content.AccountIdentifier.MerchantId i))%Z then false
      else if (id =? int64 (content.AccountIdentifier.AggregatorId i))%Z then true
      else CheckAccounts id rest
  end.

Definition retrieve (id : Z) : Pipeline unit :=
  fun w =>
  let r := content.Accounts_Authinfo service in
  let w1 := record (ApiAuthinfo (isOk r)) w in
  match r with
  | Err err =>
      dumpAPIErrorAndStop err "Getting information for authenticated account failed" w1
  | Ok authinfo =>
      match content.AccountsAuthInfoResponse.AccountIdentifiers authinfo with
      | [] => (Exited (Fatal_msg
                 "The current authenticated user has no access to any Merchant Center accounts."),
               w1)
      | firstAccount :: _ =>
          let id :=
            if (id =? 0)%Z then
              if (id =? 0)%Z then int64 (content.AccountIdentifier.AggregatorId firstAccount)
              else int64 (content.AccountIdentifier.MerchantId firstAccount)
            else id in
          let isMCA :=
            CheckAccounts id (content.AccountsAuthInfoResponse.AccountIdentifiers authinfo) in
          let a := content.Accounts_Get service (uint64 id) (uint64 id) in
          let w2 := record (ApiAccountsGet (uint64 id) (isOk a)) w1 in
          match a with
          | Err err =>
              dumpAPIErrorAndStop err "Getting Merchant Center account information failed" w2
          | Ok account => updateOffersData account isMCA w2
          end
      end
  end.

(** What RunUpdate reads from the operating system, and the two helpers of
    the package that prepare the HTTP client. *)
Record Env : Type := mkEnv {
  user_Current : Result string;                  (* usr.HomeDir *)
  path_Join : string -> string -> string;
  os_Getenv : string -> string;
  os_IsNotExist_Stat : string -> bool;           (* os.IsNotExist of os.Stat's error *)
  os_OpenFile : string -> option error;
  File_Close : option error;
  authWithGoogle : string -> option Fatal;       (* may end the process *)
  logClient : option Fatal;
  content_New : option error;
  url_Parse : string -> Result bool              (* u.IsAbs() *)
}.

Variable env : Env.

Definition endpointEnvVar : string := "GOOGLE_SHOPPING_SAMPLES_ENDPOINT".

(** RunUpdate from [content.New(client)] to its last line. *)
Definition RunUpdate_service (id : Z) : Pipeline unit :=
  fun w =>
  match content_New env with
  | Some err => (Exited (Fatal_err err), w)
  | None =>
      let baseURL := os_Getenv env endpointEnvVar in
      if negb (String.eqb baseURL "") then
        match url_Parse env baseURL with
        | Err err =>
            (Exited (Fatalf_v ("Failure to parse " ++ endpointEnvVar ++ " value as URL: %s") err), w)
        | Ok false =>
            (Exited (Fatal_msg ("Expected absolute URL for " ++ endpointEnvVar ++ " value: "
                                ++ baseURL)), w)
        | Ok true => retrieve id w
        end
      else retrieve id w
  end.

Definition RunUpdate (id : Z) (logFile : string) : Pipeline unit :=
  fun w =>
  match user_Current env with
  | Err err => (Exited (Fatal_err err), w)
  | Ok HomeDir =>
      let configPath := path_Join env HomeDir "merchant-center" in
      let logFilePath := path_Join env HomeDir logFile in
      if (id =? int64 0)%Z then
        (Exited (Fatal_msg "valid merchant_id should be provided"), w)
      else if String.eqb (os_Getenv env "GAE_INSTANCE") ""
              && os_IsNotExist_Stat env configPath then
        (Exited (Fatalf_s "Configuration directory %s does not exist" configPath), w)
      else
        match authWithGoogle env configPath with
        | Some f => (Exited f, w)
        | None =>
            if negb (String.eqb logFile "") then
              match os_OpenFile env logFilePath with
              | Some err => (Exited (Fatalf_v "Failed to open log file: %s" err), w)
              | None =>
                  match logClient env with
                  | Some f => (Exited f, w)
                  | None =>
                      match RunUpdate_service id w with
                      | (Exited f, w1) => (Exited f, w1)
                      | (out, w1) =>
                          (* the deferred f.Close() *)
                          match File_Close env with
                          | Some err =>
                              (Exited (Fatalf_v "Failed to close log file: %s" err), w1)
                          | None => (out, w1)
                          end
                      end
                  end
              end
            else RunUpdate_service id w
        end
  end.

End Update.

(* ================================================================= *)
(** ** Construction of the store *)

Record MySQLConfig : Type := mkConfig {
  Username : string;
  Password : string;
  Host : string;
  Port : Z;
  UnixSocket : string
}.

(** fmt's %d. *)
Definition fmt_d (n : Z) : string := NilEmpty.string_of_int (Z.to_int n).

(** dataStoreName returns a connection string suitable for sql.Open. *)
Definition dataStoreName (c : MySQLConfig) (databaseName : string) : string :=
  let cred :=
    if negb (String.eqb (Username c) "") then
      (if negb (String.eqb (Password c) "") then Username c ++ ":" ++ Password c
       else Username c) ++ "@"
    else "" in
  if negb (String.eqb (UnixSocket c) "") then
    cred ++ "unix(" ++ UnixSocket c ++ ")/" ++ databaseName
  else
    cred ++ "tcp([" ++ Host c ++ "]:" ++ fmt_d (Port c) ++ ")/" ++ databaseName.

(** How the server answers during construction, by data source name and by
    statement text. *)
Record Server : Type := mkServer {
  sql_Open : string -> option error;
  conn_Ping : string -> option error;
  conn_Exec : string -> option error;
  conn_Prepare : string -> option error
}.

(** createTable creates the table, and if necessary, the database.  The
    second component lists the statements sent, in order. *)
Fixpoint createTable_from (srv : Server) (stmts : list string) : option error * list string :=
  match stmts with
  | [] => (None, [])
  | stmt :: rest =>
      match conn_Exec srv stmt with
      | Some err => (Some err, [stmt])
      | None => let (e, sent) := createTable_from srv rest in (e, stmt :: sent)
      end
  end.

Definition createTable (srv : Server) : option error * list string :=
  createTable_from srv createTableStatements.

Definition after (sent : list string) (r : option error * list string)
  : option error * list string :=
  (fst r, (sent ++ snd r)%list).

(** The test [mErr, ok := err.(MySQLError); ok && mErr.Number == n]. *)
Definition hasNumber (n : N) (err : error) : bool :=
  match err with
  | MySQLError k _ => N.eqb k n
  | _ => false
  end.

Definition isErrBadConn (err : option error) : bool :=
  match err with
  | Some ErrBadConn => true
  | _ => false
  end.

(** ensureTableExists checks the table exists. If not, it creates it. *)
Definition ensureTableExists (config : MySQLConfig) (srv : Server)
  : option error * list string :=
  let dsn := dataStoreName config "" in
  match sql_Open srv dsn with
  | Some err => (Some (Errorf_v "mysql: could not get a connection: %v" err), [])
  | None =>
      if isErrBadConn (conn_Ping srv dsn) then
        (Some (Errorf ("mysql: could not connect to the database. " ++
                       "could be bad address, or this address is not whitelisted for access.")),
         [])
      else
        let created :=
          match conn_Exec srv "USE library" with
          | Some err => hasNumber 1049 err      (* database does not exist *)
          | None => false
          end in
        if created then after ["USE library"] (createTable srv)
        else
          match conn_Exec srv "DESCRIBE offers" with
          | Some err =>
              if hasNumber 1146 err then          (* table does not exist *)
                after ["USE library"; "DESCRIBE offers"] (createTable srv)
              else
                (Some (Errorf_v "mysql: could not connect to the database: %v" err),
                 ["USE library"; "DESCRIBE offers"])
          | None => (None, ["USE library"; "DESCRIBE offers"])
          end
  end.

(** The statements of the handle, prepared in the order of newMySQLDB. *)
Fixpoint prepare_all (srv : Server) (stmts : list (Stmt * string)) : Result (list Stmt) :=
  match stmts with
  | [] => Ok []
  | (st, name) :: rest =>
      match conn_Prepare srv (query st) with
      | Some err => Err (Errorf_v ("mysql: prepare " ++ name ++ ": %v") err)
      | None =>
          match prepare_all srv rest with
          | Err e => Err e
          | Ok l => Ok (st :: l)
          end
      end
  end.

(** newMySQLDB creates a new OfferDatabase backed by a given MySQL server:
    the prepared statements of the handle, or the error, and the statements
    sent while making sure the table exists. *)
Definition newMySQLDB (config : MySQLConfig) (srv : Server)
  : Result (list Stmt) * list string :=
  match ensureTableExists config srv with
  | (Some err, sent) => (Err err, sent)
  | (None, sent) =>
      let dsn := dataStoreName config "library" in
      match sql_Open srv dsn with
      | Some err => (Err (Errorf_v "mysql: could not get a connection: %v" err), sent)
      | None =>
          match conn_Ping srv dsn with
          | Some err =>
              (Err (Errorf_v "mysql: could not establish a good connection: %v" err), sent)
          | None =>
              (prepare_all srv [(list_, "list"); (get, "get"); (insert, "insert");
                                (update, "update"); (delete, "delete")],
               sent)
          end
      end
  end.

(* ================================================================= *)
(** ** Concrete stores and catalogs used below *)

(** Stand-in for the Unicode tables where every string is ASCII. *)
Definition asciiOnly : string -> string := fun s => s.

Fixpoint rtrim (s : string) : string :=
  match s with
  | EmptyString => EmptyString
  | String c s' =>
      match rtrim s' with
      | EmptyString => if Ascii.eqb c " "%char then EmptyString else String c EmptyString
      | t => String c t
      end
  end.

(** utf8_general_ci on ASCII strings: case is ignored and so are trailing
    spaces. *)
Definition utf8_general_ci (a b : string) : bool :=
  String.eqb (mapBytes lowerByte (rtrim a)) (mapBytes lowerByte (rtrim b)).

(** Two strings equal up to the case of their ASCII letters. *)
Definition equalFold (a b : string) : Prop :=
  mapBytes lowerByte a = mapBytes lowerByte b.

(** A continuation byte of UTF-8: 10xxxxxx. *)
Definition continues (a : ascii) : bool :=
  (128 <=? N_of_ascii a)%N && (N_of_ascii a <? 192)%N.

(** The longest prefix of [s] made of whole characters of charset utf8 (one
    to three bytes each, no overlong form) whose total cost is within [room];
    [cost n] is what a character of n bytes takes of the room. *)
Fixpoint clip (cost : N -> N) (room : N) (s : string) : string :=
  match s with
  | EmptyString => EmptyString
  | String a r =>
      let b := N_of_ascii a in
      if (b <? 128)%N then
        if (cost 1%N <=? room)%N
        then String a (clip cost (room - cost 1%N) r)
        else EmptyString
      else if (b <? 194)%N then EmptyString
      else if (b <? 224)%N then
        match r with
        | String a1 r1 =>
            if continues a1 && (cost 2%N <=? room)%N
            then String a (String a1 (clip cost (room - cost 2%N) r1))
            else EmptyString
        | EmptyString => EmptyString
        end
      else if (b <? 240)%N then
        match r with
        | String a1 (String a2 r2) =>
            if continues a1 && continues a2 &&
               ((225 <=? b)%N || (160 <=? N_of_ascii a1)%N) &&
               (cost 3%N <=? room)%N
            then String a (String a1 (String a2 (clip cost (room - cost 3%N) r2)))
            else EmptyString
        | _ => EmptyString
        end
      else EmptyString
  end.

(** A server without strict sql_mode, on a utf8 connection: a value is cut
    where the column is full (255 characters of a VARCHAR(255), 65535 bytes
    of a TEXT) or where its bytes stop being characters of utf8, as at a
    character of four bytes; a value that fits is stored as it is.  (A server
    with a strict sql_mode rejects the statement instead: that is a failure
    of the execution.) *)
Definition utf8_cut (c : ColumnType) (s : string) : string :=
  match c with
  | VARCHAR n => clip (fun _ => 1%N) n s
  | TEXT => clip (fun bytes => bytes) 65535%N s
  end.

(** The table right after createTableStatements. *)
Definition fresh : mysqlDB := mkDB [] 1 utf8_general_ci utf8_cut [].

Definition product (id descr : string) : content.Product.t :=
  content.Product.mk id ("title of " ++ id) (Some (content.Price.mk "10.00" "USD"))
                     ("https://img.example/" ++ id) descr ("https://shop.example/" ++ id).

Definition offer (id descr : string) : Offer :=
  mkOffer id ("title of " ++ id) "10.00" "USD"
          ("https://img.example/" ++ id) descr ("https://shop.example/" ++ id).

Definition page (ps : list content.Product.t) : content.ProductsListResponse.t :=
  content.ProductsListResponse.mk ps.

(** The store after AddOffer of each offer in turn. *)
Definition populate (os : list Offer) (db : mysqlDB) : mysqlDB :=
  fold_left (fun d o => snd (AddOffer o d)) os db.

Definition offerIds (db : mysqlDB) : list string := map col.offerId (table db).

Definition sweeps (l : list Event) : nat :=
  length (filter (fun e => match e with CallDeleteOffers _ => true | _ => false end) l).

(** Fifty offers for socks, then one for a kettle. *)
Definition store51 : mysqlDB :=
  populate (map (fun n => offer ("S" ++ fmt_d (Z.of_nat n)) "Wool socks") (seq 1 50)
            ++ [offer "K" "Red Kettle"])
           fresh.

(** The number of pages a list call yields. *)
Fixpoint pages {R : Type} (c : content.Feed R) : nat :=
  match c with
  | content.DoFails _ => 0
  | content.LastPage _ => 1
  | content.NextPage _ rest => S (pages rest)
  end.

(** Every product of the page carries a price. *)
Definition priced (res : content.ProductsListResponse.t) : Prop :=
  Forall (fun p => content.Product.Price p <> None)
         (content.ProductsListResponse.Resources res).

(** Every request of the list call succeeds and every product is priced. *)
Fixpoint healthy (c : content.Feed content.ProductsListResponse.t) : Prop :=
  match c with
  | content.DoFails _ => False
  | content.LastPage x => priced x
  | content.NextPage x rest => priced x /\ healthy rest
  end.

(** Rows that are marked as touched stay in the table. *)
Definition touched_kept (w w' : World) : Prop :=
  forall r, In r (table (DB w)) -> col.updated r = true -> In r (table (DB w')).

(** On a table whose rows are all touched, rows are only ever appended. *)
Definition only_appends (w w' : World) : Prop :=
  Forall (fun r => col.updated r = true) (table (DB w)) ->
  exists added,
    table (DB w') = (table (DB w) ++ added)%list /\
    Forall (fun r => col.updated r = true) added.

(** The log only grows. *)
Definition log_extends (w w' : World) : Prop :=
  exists evs, calls w' = (calls w ++ evs)%list.

(** The row that holds the seven fields of an offer. *)
Definition row_of (n : N) (o : Offer) : Row :=
  col.mkRow n (ID o) (Some (Title o)) (Some (Price o)) (Some (Currency o))
            (Some (ImageURL o)) (Some (Description o)) (Some (MerchantURL o)) true.

(** An offer as the server keeps it, column by column. *)
Definition as_stored (db : mysqlDB) (o : Offer) : Offer :=
  let v := stores db (VARCHAR 255) in
  mkOffer (v (ID o)) (v (Title o)) (v (Price o)) (v (Currency o))
          (v (ImageURL o)) (stores db TEXT (Description o)) (v (MerchantURL o)).

(** Every field of the offer fits its column: the server keeps it as it is. *)
Definition offer_kept (db : mysqlDB) (o : Offer) : Prop :=
  as_stored db o = o.

(** A Content API whose one account, merchant 1, lists the given products. *)
Definition catalog (c : content.Feed content.ProductsListResponse.t) : content.APIService :=
  content.mkService
    (Ok (content.AccountsAuthInfoResponse.mk [content.AccountIdentifier.mk 0 1]))
    (fun _ account => Ok (content.Account.mk account))
    (fun _ => content.DoFails (APIError 403 "not an aggregator"))
    (fun _ => c).

Definition merchant : content.Account.t := content.Account.mk 1.

(** Page 1 holds offer X1, page 2 holds offer X2. *)
Definition two_pages : content.Feed content.ProductsListResponse.t :=
  content.NextPage (page [product "X1" "first"])
                   (content.LastPage (page [product "X2" "second"])).

(** A machine on which RunUpdate finds all it needs. *)
Definition workstation : Env :=
  mkEnv (Ok "/home/dev") (fun a b => a ++ "/" ++ b) (fun _ => "") (fun _ => false)
        (fun _ => None) None (fun _ => None) None None (fun _ => Ok true).

(** A Content API whose identity has access to no account. *)
Definition no_accounts : content.APIService :=
  content.mkService
    (Ok (content.AccountsAuthInfoResponse.mk []))
    (fun _ account => Ok (content.Account.mk account))
    (fun _ => content.DoFails (APIError 403 "not an aggregator"))
    (fun _ => two_pages).

Definition localhost : MySQLConfig := mkConfig "root" "secret" "localhost" 3306 "".

(** A server whose first ping times out and which answers from then on. *)
Definition slow_start : Server :=
  mkServer (fun _ => None)
           (fun dsn => if String.eqb dsn (dataStoreName localhost "")
                       then Some (OtherError "dial tcp: i/o timeout")
                       else None)
           (fun _ => None) (fun _ => None).

(** A server without the database. *)
Definition no_database : Server :=
  mkServer (fun _ => None) (fun _ => None)
           (fun stmt => if String.eqb stmt "USE library"
                        then Some (MySQLError 1049 "Unknown database")
                        else None)
           (fun _ => None).

(** The first of the create statements was sent. *)
Definition create_attempted (sent : list string) : Prop :=
  In (hd "" createTableStatements) sent.

(* ================================================================= *)
(** ** app.go: the handlers of the site *)

Module app.

(** The three templates of the site and what a handler hands to them.  The
    templates themselves are not part of the development: [Execute] is
    whatever they return. *)
Inductive Template : Type := listTmpl | detailTmpl | updateSuccessTmpl.

Inductive Data : Type :=
| Offers (offers : list Offer)     (* a slice of offers; nil is the empty slice *)
| OneOffer (offer : Offer)
| NoData.                          (* nil *)

(** fmt.Sprintf(format, v...) as the handlers call it. *)
Inductive Text : Type :=
| Sprintf (format : string)
| Sprintf_v (format : string) (e : error).

Record appError : Type := mkAppError {
  Error : error;
  Message : Text;
  Code : Z
}.

(** What a handler reads of the request: the values of the URL parameter q,
    if present, and the offer_id of the route. *)
Record Request : Type := mkRequest {
  Query_q : option (list string);
  Vars_offer_id : string
}.

Definition merchantIDEnv : string := "MERCHANT_ID".

Definition appErrorf (err : error) (message : Text) : appError :=
  mkAppError err message 500.

(** strconv.ParseInt(s, 10, 64): an optional sign and decimal digits, within
    the range of int64. *)
Definition ParseInt (s : string) : Result Z :=
  let failed := Err (OtherError "strconv.NumError") in
  match s with
  | EmptyString => failed
  | String c rest =>
      let neg := Ascii.eqb c "-" in
      let digits := if Ascii.eqb c "+" || Ascii.eqb c "-" then rest else s in
      match digits with
      | EmptyString => failed
      | _ =>
          match NilEmpty.uint_of_string digits with
          | None => failed
          | Some u =>
              let un := Z.of_N (N.of_uint u) in
              if neg then (if (un <=? 2 ^ 63)%Z then Ok (- un)%Z else failed)
              else (if (un <? 2 ^ 63)%Z then Ok un else failed)
          end
      end
  end.

Section Handlers.

Variable unicodeToLower : string -> string.
Variable Execute : Template -> Data -> option appError.
Variable service : content.APIService.
Variable env : Env.

(** listHandler displays a list with summaries of offers in the database. *)
Definition listHandler (r : Request) : Pipeline (option appError) :=
  fun w =>
  let (res, db) := ListOffers (DB w) in
  let offers := match res with Ok l => l | Err _ => [] end in
  (Ret (Execute listTmpl (Offers offers)), mkWorld db (calls w)).

(** searchHandler displays a list based on the search query. *)
Definition searchHandler (r : Request) : Pipeline (option appError) :=
  fun w =>
  match Query_q r with
  | None => (Ret (Some (appErrorf (New "bad offer query") (Sprintf "could not find offers"))), w)
  | Some [] => (Panicked "index out of range", w)
  | Some (q :: _) =>
      let (res, db) := SearchOffers unicodeToLower q (DB w) in
      let offers := match res with Ok l => l | Err _ => [] end in
      (Ret (Execute listTmpl (Offers offers)), mkWorld db (calls w))
  end.

(** offerFromRequest retrieves an offer from the database given a offer ID in
    the URL's path. *)
Definition offerFromRequest (r : Request) (w : World) : Result Offer * World :=
  let id := Vars_offer_id r in
  let (res, db) := GetOffer id (DB w) in
  match res with
  | Err err => (Err (Errorf_v "could not find offer: %v" err), mkWorld db (calls w))
  | Ok offer => (Ok offer, mkWorld db (calls w))
  end.

(** detailHandler displays the details of a given offer. *)
Definition detailHandler (r : Request) : Pipeline (option appError) :=
  fun w =>
  let (res, w1) := offerFromRequest r w in
  match res with
  | Err err => (Ret (Some (appErrorf err (Sprintf_v "%v" err))), w1)
  | Ok offer => (Ret (Execute detailTmpl (OneOffer offer)), w1)
  end.

(** updateHandler updates the sqlDB with the latest offers using the
    contentAPI. *)
Definition updateHandler (r : Request) : Pipeline (option appError) :=
  fun w =>
  let v := os_Getenv env merchantIDEnv in
  if String.eqb v "" then (Panicked "MERCHANT_ID environment variable not set.", w)
  else
    match ParseInt v with
    | Err err => (Ret (Some (appErrorf err (Sprintf "error while parsing merchant id"))), w)
    | Ok id =>
        match RunUpdate service env id "" w with
        | (Ret _, w1) => (Ret (Execute updateSuccessTmpl NoData), w1)
        | (Panicked msg, w1) => (Panicked msg, w1)
        | (Exited f, w1) => (Exited f, w1)
        end
    end.

End Handlers.

End app.

(* ================================================================= *)
(** ** Notions used by the properties of the store and of the pipeline *)

(** The primary key: ids are pairwise distinct and below the counter. *)
Definition primary_key (db : mysqlDB) : Prop :=
  NoDup (map col.id (table db)) /\
  Forall (fun r => (col.id r < auto_increment db)%N) (table db).

(** A row of the table matches the key under the collation of the table. *)
Definition stored (db : mysqlDB) (id : string) : Prop :=
  exists r, In r (table db) /\ collate db (col.offerId r) id = true.

(** How a pipeline function ended. *)
Inductive Kind : Type := Returned | Panic | Exit.

Definition kind {A} (o : Outcome A) : Kind :=
  match o with
  | Ret _ => Returned
  | Panicked _ => Panic
  | Exited _ => Exit
  end.

(** Anything but the end of the process. *)
Definition unless_exit (k : Kind) : bool :=
  match k with Exit => false | _ => true end.

(** A normal return only. *)
Definition only_return (k : Kind) : bool :=
  match k with Returned => true | _ => false end.

(** Every product of every page of the feed satisfies P. *)
Fixpoint feed_all (P : content.Product.t -> Prop)
         (c : content.Feed content.ProductsListResponse.t) : Prop :=
  match c with
  | content.DoFails _ => True
  | content.LastPage x => Forall P (content.ProductsListResponse.Resources x)
  | content.NextPage x rest =>
      Forall P (content.ProductsListResponse.Resources x) /\ feed_all P rest
  end.

Definition catalog_all (P : content.Product.t -> Prop) (service : content.APIService) : Prop :=
  forall id, feed_all P (content.Products_List service id).

Definition has_price (p : content.Product.t) : Prop := content.Product.Price p <> None.

(** Every product the Content API lists, for whichever merchant, is priced. *)
Definition catalog_priced (service : content.APIService) : Prop :=
  catalog_all has_price service.

(** The identifier mentions the id, as a merchant or as an aggregator. *)
Definition mentions (id : Z) (i : content.AccountIdentifier.t) : Prop :=
  id = int64 (content.AccountIdentifier.MerchantId i) \/
  id = int64 (content.AccountIdentifier.AggregatorId i).


(** A site whose templates always render. *)
Definition renders : app.Template -> app.Data -> option app.appError := fun _ _ => None.

(** An aggregator 7 with the sub-accounts 1 and 2 on one page. *)
Definition aggregator (c : content.Feed content.ProductsListResponse.t) : content.APIService :=
  content.mkService
    (Ok (content.AccountsAuthInfoResponse.mk [content.AccountIdentifier.mk 7 0]))
    (fun _ account => Ok (content.Account.mk account))
    (fun _ => content.LastPage (content.AccountsListResponse.mk
                                  [content.Account.mk 1; content.Account.mk 2]))
    (fun _ => c).

(** A table with one row whose flag was cleared by hand and one touched row. *)
Definition stale_store : mysqlDB :=
  mkDB [ col.mkRow 1 "OLD" (Some "old title") None None None (Some "Old Kettle") None false;
         col.mkRow 2 "NEW" (Some "new title") None None None None None true ]
       3 utf8_general_ci utf8_cut [].

(** [n] times the byte [a]. *)
Fixpoint bytes (n : nat) (a : ascii) : string :=
  match n with
  | O => EmptyString
  | S n' => String a (bytes n' a)
  end.

(** An offer whose merchant URL has 300 bytes. *)
Definition long_url : Offer :=
  mkOffer "L" "Lamp" "10.00" "USD" "http://img/L" "Desk lamp"
          ("http://shop.example/" ++ bytes 280 "a").

(** An offer whose title ends in U+1F600, a character of four bytes. *)
Definition four_bytes : Offer :=
  mkOffer "F" ("Mug " ++ String (ascii_of_nat 240) (String (ascii_of_nat 159)
                         (String (ascii_of_nat 152) (String (ascii_of_nat 128) ""))))
          "10.00" "USD" "http://img/F" "Mug" "http://shop.example/F".

(** The same server under a strict sql_mode, at the insert of an offer with
    a value too long for its column. *)
Definition strict_rejects : mysqlDB :=
  set_faults [Some (MySQLError 1406 "Data too long for column 'merchantUrl' at row 1")] fresh.

(** A machine like [workstation] whose MERCHANT_ID has the given value. *)
Definition site (merchant_id : string) : Env :=
  mkEnv (Ok "/home/dev") (fun a b => a ++ "/" ++ b)
        (fun k => if String.eqb k app.merchantIDEnv then merchant_id else "")
        (fun _ => false) (fun _ => None) None (fun _ => None) None None (fun _ => Ok true).

(** A Content API that turns the identity away. *)
Definition unauthorized : content.APIService :=
  content.mkService (Err (APIError 401 "Unauthorized"))
                    (fun _ account => Ok (content.Account.mk account))
                    (fun _ => content.DoFails (APIError 401 "Unauthorized"))
                    (fun _ => two_pages).

(* ================================================================= *)
(** ** Sanity checks of the embedding *)

Example NumInput_update : NumInput update = 8%nat.
Proof. reflexivity. Qed.

Example NumInput_insert : NumInput insert = 7%nat.
Proof. reflexivity. Qed.

Example statement_lengths :
  map (fun st => String.length (query st)) [list_; get; insert; update; delete]
  = [29; 38; 128; 135; 40]%nat.
Proof. reflexivity. Qed.

Example createTableStatements_lengths :
  map String.length createTableStatements = [103; 12; 343]%nat.
Proof. reflexivity. Qed.

(* ================================================================= *)
(** ** The store: statements and faults *)

Lemma next_fault_table db : table (snd (next_fault db)) = table db.
Proof. unfold next_fault. destruct (faults db); reflexivity. Qed.

Lemma next_fault_auto_increment db :
  auto_increment (snd (next_fault db)) = auto_increment db.
Proof. unfold next_fault. destruct (faults db); reflexivity. Qed.

Lemma next_fault_collate db : collate (snd (next_fault db)) = collate db.
Proof. unfold next_fault. destruct (faults db); reflexivity. Qed.

Lemma next_fault_stores db : stores (snd (next_fault db)) = stores db.
Proof. unfold next_fault. destruct (faults db); reflexivity. Qed.

Lemma next_fault_as_stored db o : as_stored (snd (next_fault db)) o = as_stored db o.
Proof. unfold as_stored. rewrite next_fault_stores. reflexivity. Qed.

Lemma next_fault_faults db : faults (snd (next_fault db)) = tl (faults db).
Proof.
  unfold next_fault. destruct (faults db) eqn:E; simpl; [rewrite E|]; reflexivity.
Qed.

Lemma scan_rows_filter keep rows :
  scan_rows keep rows = Ok (filter keep (map offer_of_row rows)).
Proof.
  induction rows as [|r rows IH]; simpl; [reflexivity|].
  rewrite IH. reflexivity.
Qed.

Lemma Stmt_Query_list db :
  Stmt_Query list_ [] db =
  (match fst (next_fault db) with
   | Some e => Err e
   | None => Ok (firstn 50 (table db))
   end, snd (next_fault db)).
Proof.
  unfold Stmt_Query. destruct (next_fault db) as [f db1] eqn:E.
  pose proof (next_fault_table db) as T. rewrite E in T. simpl in *.
  destruct f; [reflexivity|]. simpl. rewrite T. reflexivity.
Qed.

(** An execution of the update statement with seven arguments changes nothing
    and fails. *)
Lemma Stmt_Exec_update_short a1 a2 a3 a4 a5 a6 a7 db :
  Stmt_Exec update [a1; a2; a3; a4; a5; a6; a7] db =
  (Err (match fst (next_fault db) with
        | Some e => e
        | None => ErrArgCount 8 7
        end), snd (next_fault db)).
Proof.
  unfold Stmt_Exec. destruct (next_fault db) as [[e|] db1]; reflexivity.
Qed.

Lemma Stmt_Exec_insert a1 a2 a3 a4 a5 a6 a7 db :
  Stmt_Exec insert [a1; a2; a3; a4; a5; a6; a7] db =
  match fst (next_fault db) with
  | Some e => (Err e, snd (next_fault db))
  | None =>
      let db1 := snd (next_fault db) in
      (Ok (mkResult (Z.of_N (auto_increment db1)) 1),
       mkDB (table db1 ++ [row_of (auto_increment db1)
                                  (as_stored db1 (mkOffer a1 a2 a3 a4 a5 a6 a7))])
            (auto_increment db1 + 1) (collate db1) (stores db1) (faults db1))
  end.
Proof.
  unfold Stmt_Exec. destruct (next_fault db) as [[e|] db1]; reflexivity.
Qed.

Lemma Stmt_Exec_delete db :
  Stmt_Exec delete [] db =
  match fst (next_fault db) with
  | Some e => (Err e, snd (next_fault db))
  | None =>
      let db1 := snd (next_fault db) in
      (Ok (mkResult 0 (Z.of_nat (length (table db1) - length (filter col.updated (table db1))))),
       set_table (filter col.updated (table db1)) db1)
  end.
Proof.
  unfold Stmt_Exec. destruct (next_fault db) as [[e|] db1]; reflexivity.
Qed.

(* ================================================================= *)
(** ** The store: UpdateOffer *)

(** UpdateOffer in closed form: it never reaches the table. *)
Lemma UpdateOffer_eq o db :
  UpdateOffer o db =
  if String.eqb (ID o) "" then
    (Some (New "mysql: offer with unassigned ID passed into updateOffer"), db)
  else
    (Some (Errorf_v "mysql: could not execute statement: %v"
             (match fst (next_fault db) with
              | Some e => e
              | None => ErrArgCount 8 7
              end)),
     snd (next_fault db)).
Proof.
  unfold UpdateOffer, execAffectingOneRow. rewrite Stmt_Exec_update_short.
  destruct (String.eqb (ID o) ""); reflexivity.
Qed.

Lemma UpdateOffer_table o db : table (snd (UpdateOffer o db)) = table db.
Proof.
  rewrite UpdateOffer_eq. destruct (String.eqb (ID o) ""); simpl;
    [reflexivity | apply next_fault_table].
Qed.

Lemma UpdateOffer_fails o db : isNil (fst (UpdateOffer o db)) = false.
Proof. rewrite UpdateOffer_eq. destruct (String.eqb (ID o) ""); reflexivity. Qed.

(** C6. For every offer with a non-empty ID, UpdateOffer returns an error and
    leaves every stored row as it was: the update statement has eight
    placeholders and is executed with seven arguments, so the execution is
    refused (by the argument count, or earlier by a connection fault). *)
Theorem UpdateOffer_never_succeeds (o : Offer) (db : mysqlDB) :
  ID o <> "" ->
  NumInput update = 8%nat /\
  UpdateOffer o db =
    (Some (Errorf_v "mysql: could not execute statement: %v"
             (match fst (next_fault db) with
              | Some e => e
              | None => ErrArgCount 8 7
              end)),
     snd (next_fault db)) /\
  table (snd (UpdateOffer o db)) = table db /\
  auto_increment (snd (UpdateOffer o db)) = auto_increment db.
Proof.
  intros Hid. apply String.eqb_neq in Hid.
  split; [reflexivity|].
  rewrite UpdateOffer_eq, Hid. simpl.
  split; [reflexivity|]. split; [apply next_fault_table | apply next_fault_auto_increment].
Qed.

Lemma UpdateOffer_never_succeeds_witness :
  ID (offer "A" "Red Kettle") <> "" /\
  table (snd (UpdateOffer (offer "A" "Red Kettle")
                          (populate [offer "A" "Blue Kettle"] fresh)))
  = table (populate [offer "A" "Blue Kettle"] fresh).
Proof.
  split; [discriminate|].
  apply (UpdateOffer_never_succeeds (offer "A" "Red Kettle")
           (populate [offer "A" "Blue Kettle"] fresh)).
  discriminate.
Defined.

(* ================================================================= *)
(** ** The store: SearchOffers *)

Lemma prefix_app sub s :
  String.prefix sub s = true <-> exists post, s = sub ++ post.
Proof.
  revert s. induction sub as [|c sub IH]; intros s; simpl.
  - split; [intros _; exists s; reflexivity | intros _; destruct s; reflexivity].
  - destruct s as [|c' s]; simpl.
    + split; [discriminate | intros [post H]; discriminate].
    + destruct (Ascii.ascii_dec c c') as [->|N].
      * rewrite IH. split; intros [post H]; exists post.
        -- rewrite H. reflexivity.
        -- injection H as H. exact H.
      * split; [discriminate|]. intros [post H]. injection H as H1 H2.
        congruence.
Qed.

(** strings.Contains holds exactly when the substring occurs. *)
Lemma Contains_occurs s sub :
  Contains s sub = true <-> exists pre post, s = pre ++ sub ++ post.
Proof.
  induction s as [|c s IH].
  - cbn [Contains]. rewrite orb_false_r, prefix_app. split.
    + intros [post H]. exists "", post. exact H.
    + intros (pre & post & H). destruct pre; simpl in H.
      * exists post. exact H.
      * discriminate.
  - cbn [Contains]. rewrite orb_true_iff, prefix_app, IH. split.
    + intros [[post H] | (pre & post & H)].
      * exists "", post. exact H.
      * exists (String c pre), post. simpl. rewrite H. reflexivity.
    + intros (pre & post & H). destruct pre as [|c' pre]; simpl in H.
      * left. exists post. exact H.
      * right. injection H as _ H. exists pre, post. exact H.
Qed.

Lemma Contains_empty s : Contains s "" = true.
Proof. destruct s; reflexivity. Qed.

Lemma mapBytes_app f a b : mapBytes f (a ++ b) = mapBytes f a ++ mapBytes f b.
Proof. induction a as [|c a IH]; simpl; [reflexivity | rewrite IH; reflexivity]. Qed.

Lemma mapBytes_split f s x y :
  mapBytes f s = x ++ y ->
  exists a b, s = a ++ b /\ mapBytes f a = x /\ mapBytes f b = y.
Proof.
  revert s. induction x as [|c x IH]; intros s H; simpl in H.
  - exists "", s. auto.
  - destruct s as [|c' s]; simpl in H; [discriminate|].
    injection H as H1 H2. destruct (IH s H2) as (a & b & -> & Ha & Hb).
    exists (String c' a), b. simpl. rewrite H1, Ha. auto.
Qed.

Lemma lowerByte_fixed s : hasUpper s = false -> mapBytes lowerByte s = s.
Proof.
  induction s as [|c s IH]; simpl; [reflexivity|].
  intros H. apply orb_false_iff in H as [H1 H2].
  rewrite (IH H2). unfold lowerByte. rewrite H1. reflexivity.
Qed.

(** On an ASCII string, ToLower lowers each byte. *)
Lemma ToLower_ascii lower s :
  isASCII s = true -> ToLower lower s = mapBytes lowerByte s.
Proof.
  intros H. unfold ToLower. rewrite H.
  destruct (hasUpper s) eqn:U; [reflexivity|].
  symmetry. apply lowerByte_fixed. exact U.
Qed.

Lemma matches_ascii lower q o :
  isASCII q = true -> isASCII (Description o) = true ->
  (matches lower q o = true <->
   exists pre mid post, Description o = pre ++ mid ++ post /\ equalFold mid q).
Proof.
  intros Hq Hd. unfold matches, equalFold.
  rewrite (ToLower_ascii lower q Hq), (ToLower_ascii lower _ Hd), Contains_occurs.
  split.
  - intros (pre & post & H).
    destruct (mapBytes_split _ _ _ _ H) as (a & b & Hab & Ha & Hb).
    destruct (mapBytes_split _ _ _ _ Hb) as (m & c & Hmc & Hm & Hc).
    exists a, m, c. subst b. split; [exact Hab | exact Hm].
  - intros (pre & mid & post & H & Hm).
    exists (mapBytes lowerByte pre), (mapBytes lowerByte post).
    rewrite H, !mapBytes_app, Hm. reflexivity.
Qed.

Lemma SearchOffers_eq lower q db :
  fst (next_fault db) = None ->
  SearchOffers lower q db =
  (match filter (matches lower q) (map offer_of_row (firstn 50 (table db))) with
   | [] => Err (Errorf_s "mysql: could not find offer with description %s" q)
   | hits => Ok hits
   end, snd (next_fault db)).
Proof.
  intros H. unfold SearchOffers. rewrite Stmt_Query_list, H, scan_rows_filter.
  destruct (filter _ _); reflexivity.
Qed.

(** C10. The empty query matches every offer it examines, so with a
    non-empty store SearchOffers returns the whole list snapshot (the first 50
    rows), and with an empty store it returns an error, not an empty list. *)
Theorem SearchOffers_empty_query (lower : string -> string) (db : mysqlDB) :
  fst (next_fault db) = None ->
  (forall o, matches lower "" o = true) /\
  (table db <> [] ->
   fst (SearchOffers lower "" db) = Ok (map offer_of_row (firstn 50 (table db)))) /\
  (table db = [] ->
   fst (SearchOffers lower "" db)
   = Err (Errorf_s "mysql: could not find offer with description %s" "")).
Proof.
  intros H.
  assert (M : forall o, matches lower "" o = true).
  { intros o. unfold matches. replace (ToLower lower "") with "" by reflexivity.
    apply Contains_empty. }
  split; [exact M|].
  rewrite (SearchOffers_eq lower "" db H). cbn [fst].
  assert (F : forall l, filter (matches lower "") l = l).
  { induction l as [|o l IH]; simpl; [reflexivity|]. rewrite M, IH. reflexivity. }
  rewrite F. split.
  - intros N. destruct (table db) as [|r t]; [contradiction|]. reflexivity.
  - intros ->. reflexivity.
Qed.

Lemma SearchOffers_empty_query_witness :
  fst (next_fault store51) = None /\
  length (table store51) = 51%nat /\
  fst (SearchOffers asciiOnly "" store51)
  = Ok (map offer_of_row (firstn 50 (table store51))).
Proof.
  split; [reflexivity|]. split; [reflexivity|].
  apply (SearchOffers_empty_query asciiOnly store51); [reflexivity|].
  vm_compute. discriminate.
Defined.

(** C7. Evaluated on the code: SearchOffers does not return every stored
    offer whose description contains the query.  On a store of 51 offers
    where the only description that contains "kettle" is that of the 51st,
    offer K is stored and GetOffer returns it, its description matches the
    query, and SearchOffers answers that there is no offer with such a
    description: it filters the result of the list statement, which ends
    after 50 rows. *)
Theorem SearchOffers_misses_row_51 :
  length (table store51) = 51%nat /\
  nth_error (map offer_of_row (table store51)) 50 = Some (offer "K" "Red Kettle") /\
  fst (GetOffer "K" store51) = Ok (offer "K" "Red Kettle") /\
  matches asciiOnly "kettle" (offer "K" "Red Kettle") = true /\
  SearchOffers asciiOnly "kettle" store51
  = (Err (Errorf_s "mysql: could not find offer with description %s" "kettle"), store51).
Proof. vm_compute. repeat split. Qed.

(** What SearchOffers computes: it examines the result of the list
    statement, that is the first 50 rows, and returns, in order, all and only
    the offers among them whose lowered description contains the lowered
    query; it fails when there is none.  On ASCII strings that is an
    occurrence of the query in the description up to the case of letters.
    No other field is looked at. *)
Lemma SearchOffers_first_50 (lower : string -> string) (q : string) (db : mysqlDB) :
  fst (next_fault db) = None ->
  let snapshot := map offer_of_row (firstn 50 (table db)) in
  let hits := filter (matches lower q) snapshot in
  fst (SearchOffers lower q db)
  = match hits with
    | [] => Err (Errorf_s "mysql: could not find offer with description %s" q)
    | _ => Ok hits
    end /\
  (forall o, In o hits <-> In o snapshot /\ matches lower q o = true) /\
  (forall o o', Description o = Description o' -> matches lower q o = matches lower q o') /\
  (forall o, isASCII q = true -> isASCII (Description o) = true ->
             (matches lower q o = true <->
              exists pre mid post, Description o = pre ++ mid ++ post /\ equalFold mid q)).
Proof.
  intros H snapshot hits.
  split; [|split; [|split]].
  - rewrite (SearchOffers_eq lower q db H). cbn [fst]. fold snapshot. fold hits.
    destruct hits; reflexivity.
  - intros o. unfold hits. rewrite filter_In. tauto.
  - intros o o' E. unfold matches. rewrite E. reflexivity.
  - intros o Hq Hd. apply matches_ascii; assumption.
Qed.

Lemma SearchOffers_first_50_witness :
  fst (next_fault store51) = None /\
  fst (SearchOffers asciiOnly "SOCKS" store51)
  = Ok (filter (matches asciiOnly "SOCKS") (map offer_of_row (firstn 50 (table store51)))) /\
  length (filter (matches asciiOnly "SOCKS") (map offer_of_row (firstn 50 (table store51)))) = 50%nat.
Proof.
  split; [reflexivity|].
  destruct (SearchOffers_first_50 asciiOnly "SOCKS" store51 eq_refl) as (E & _).
  split; [|reflexivity].
  rewrite E. vm_compute. reflexivity.
Defined.

(* ================================================================= *)
(** ** The store: what each operation does to the table *)

Lemma GetOffer_db id db : snd (GetOffer id db) = snd (next_fault db).
Proof.
  unfold GetOffer, Stmt_QueryRow, Stmt_Query.
  destruct (next_fault db) as [[e|] db1]; simpl.
  - destruct e; reflexivity.
  - destruct (filter _ _); reflexivity.
Qed.

Lemma GetOffer_table id db : table (snd (GetOffer id db)) = table db.
Proof. rewrite GetOffer_db. apply next_fault_table. Qed.

(** AddOffer appends one touched row, the offer as the server keeps it, when
    it succeeds and changes no row when it fails; it fails only when the
    execution of the statement does. *)
Lemma AddOffer_eq o db :
  AddOffer o db =
  match fst (next_fault db) with
  | Some e => (Err (Errorf_v "mysql: could not execute statement: %v" e), snd (next_fault db))
  | None =>
      let db1 := snd (next_fault db) in
      (Ok (Z.of_N (auto_increment db1)),
       mkDB (table db1 ++ [row_of (auto_increment db1) (as_stored db1 o)])
            (auto_increment db1 + 1) (collate db1) (stores db1) (faults db1))
  end.
Proof.
  unfold AddOffer, execAffectingOneRow. rewrite Stmt_Exec_insert.
  destruct (fst (next_fault db)); reflexivity.
Qed.

Lemma AddOffer_table o db :
  table (snd (AddOffer o db)) =
  if isOk (fst (AddOffer o db))
  then (table db ++ [row_of (auto_increment db) (as_stored db o)])%list
  else table db.
Proof.
  rewrite AddOffer_eq. destruct (fst (next_fault db)); simpl.
  - apply next_fault_table.
  - rewrite next_fault_table, next_fault_auto_increment, next_fault_as_stored.
    reflexivity.
Qed.

(** DeleteOffers removes exactly the rows whose flag is false when it
    succeeds and no row when it fails. *)
Lemma DeleteOffers_table db :
  table (snd (DeleteOffers db)) =
  if isNil (fst (DeleteOffers db)) then filter col.updated (table db) else table db.
Proof.
  unfold DeleteOffers. rewrite Stmt_Exec_delete.
  destruct (fst (next_fault db)); simpl; rewrite next_fault_table; reflexivity.
Qed.

Lemma filter_all_touched (t : list Row) :
  Forall (fun r => col.updated r = true) t -> filter col.updated t = t.
Proof.
  induction 1 as [|r t Hr _ IH]; simpl; [reflexivity|].
  rewrite Hr, IH. reflexivity.
Qed.

(* ================================================================= *)
(** ** The pipeline: what holds of every step holds of every run *)

Section Guarantee.

Variable R : World -> World -> Prop.
Hypothesis R_refl : forall w, R w w.
Hypothesis R_trans : forall a b c, R a b -> R b c -> R a c.
Hypothesis R_record : forall e w, R w (record e w).
Hypothesis R_Get : forall id w, R w (snd (DB_GetOffer id w)).
Hypothesis R_Update : forall o w, R w (snd (DB_UpdateOffer o w)).
Hypothesis R_Add : forall o w, R w (snd (DB_AddOffer o w)).
Hypothesis R_Delete : forall w, R w (snd (DB_DeleteOffers w)).

Lemma updateProduct_guar p w : R w (snd (updateProduct p w)).
Proof.
  unfold updateProduct. destruct (content.Product.Price p) as [price|]; [|apply R_refl].
  set (o := mkOffer _ _ _ _ _ _ _).
  pose proof (R_Get (content.Product.Id p) w) as G.
  destruct (DB_GetOffer (content.Product.Id p) w) as [got w1]. simpl in G.
  set (w2 := match got with Ok _ => snd (DB_UpdateOffer o w1) | Err _ => w1 end).
  assert (U : R w1 w2) by (subst w2; destruct got; [apply R_Update | apply R_refl]).
  pose proof (R_Add o w2) as A.
  destruct (DB_AddOffer o w2) as [added w3]. simpl in A.
  assert (T : R w w3) by (eapply R_trans; [exact G | eapply R_trans; eassumption]).
  destruct added; exact T.
Qed.

Lemma range_products_guar ps w : R w (snd (range_products ps w)).
Proof.
  revert w. induction ps as [|p ps IH]; intros w; simpl; [apply R_refl|].
  pose proof (updateProduct_guar p w) as S.
  destruct (updateProduct p w) as [[[e|]| |] w1]; simpl in S; try exact S.
  eapply R_trans; [exact S | apply IH].
Qed.

Lemma updateProducts_guar res w : R w (snd (updateProducts res w)).
Proof.
  unfold updateProducts.
  pose proof (range_products_guar (content.ProductsListResponse.Resources res) w) as S.
  destruct (range_products _ w) as [[[e|]| |] w1]; simpl in S; try exact S.
  pose proof (R_Delete w1) as D.
  destruct (DB_DeleteOffers w1) as [err w2]. simpl in *.
  eapply R_trans; eassumption.
Qed.

Lemma Pages_guar {T : Type} fetched (f : T -> Pipeline (option error)) c w :
  (forall x w, R w (snd (f x w))) -> R w (snd (Pages fetched f c w)).
Proof.
  intros Hf. revert w. induction c as [err|x|x rest IH]; intros w; simpl.
  - apply R_record.
  - eapply R_trans; [apply R_record | apply Hf].
  - pose proof (Hf x (record (fetched true) w)) as S.
    pose proof (R_record (fetched true) w) as S0.
    destruct (f x (record (fetched true) w)) as [[[e|]| |] w1]; simpl in S;
      try (eapply R_trans; eassumption).
    eapply R_trans; [exact S0 | eapply R_trans; [exact S | apply IH]].
Qed.

Variable service : content.APIService.

Lemma updateProductsList_guar a w : R w (snd (updateProductsList service a w)).
Proof.
  unfold updateProductsList.
  pose proof (Pages_guar (ApiProductsList (content.Account.Id a)) updateProducts
                (content.Products_List service (content.Account.Id a)) w
                updateProducts_guar) as S.
  destruct (Pages _ _ _ w) as [[r| |] w1]; exact S.
Qed.

Lemma updateAccountTables_guar res w : R w (snd (updateAccountTables service res w)).
Proof.
  unfold updateAccountTables.
  generalize (content.AccountsListResponse.Resources res) as l. intros l.
  revert w. induction l as [|a l IH]; intros w; simpl; [apply R_refl|].
  pose proof (updateProductsList_guar a w) as S.
  destruct (updateProductsList service a w) as [[r| |] w1]; simpl in S; try exact S.
  eapply R_trans; [exact S | apply IH].
Qed.

Lemma updateOffersData_guar a isMCA w :
  R w (snd (updateOffersData service a isMCA w)).
Proof.
  unfold updateOffersData. destruct isMCA; simpl.
  - pose proof (Pages_guar (ApiAccountsList (content.Account.Id a))
                  (updateAccountTables service)
                  (content.Accounts_List service (content.Account.Id a)) w
                  updateAccountTables_guar) as S.
    destruct (Pages _ _ _ w) as [[r| |] w1]; exact S.
  - pose proof (updateProductsList_guar a w) as S.
    destruct (updateProductsList service a w) as [[r| |] w1]; exact S.
Qed.

End Guarantee.

(* ================================================================= *)
(** ** The pipeline: rows that are touched are never lost *)

Lemma touched_kept_refl w : touched_kept w w.
Proof. intros r H _. exact H. Qed.

Lemma touched_kept_trans a b c : touched_kept a b -> touched_kept b c -> touched_kept a c.
Proof.
  intros H1 H2 r I U. apply H2; [apply H1; assumption | exact U].
Qed.

Lemma touched_kept_Add o w : touched_kept w (snd (DB_AddOffer o w)).
Proof.
  intros r I _. unfold DB_AddOffer.
  pose proof (AddOffer_table o (DB w)) as T.
  destruct (AddOffer o (DB w)) as [res db]. simpl in *. rewrite T.
  destruct (isOk res); [apply in_or_app; left|]; exact I.
Qed.

Lemma touched_kept_Delete w : touched_kept w (snd (DB_DeleteOffers w)).
Proof.
  intros r I U. unfold DB_DeleteOffers.
  pose proof (DeleteOffers_table (DB w)) as T.
  destruct (DeleteOffers (DB w)) as [res db]. simpl in *. rewrite T.
  destruct (isNil res); [apply filter_In; split|]; assumption.
Qed.

Lemma touched_kept_Get id w : touched_kept w (snd (DB_GetOffer id w)).
Proof.
  intros r I _. unfold DB_GetOffer.
  pose proof (GetOffer_table id (DB w)) as T.
  destruct (GetOffer id (DB w)) as [res db]. simpl in *. rewrite T. exact I.
Qed.

Lemma touched_kept_Update o w : touched_kept w (snd (DB_UpdateOffer o w)).
Proof.
  intros r I _. unfold DB_UpdateOffer.
  pose proof (UpdateOffer_table o (DB w)) as T.
  destruct (UpdateOffer o (DB w)) as [res db]. simpl in *. rewrite T. exact I.
Qed.

(** Whatever a page holds and whichever call fails, the rows that were in the
    table and touched before updateProducts are in the table after it. *)
Lemma updateProducts_keeps_touched res w : touched_kept w (snd (updateProducts res w)).
Proof.
  apply updateProducts_guar; try exact touched_kept_trans;
    auto using touched_kept_refl, touched_kept_Get, touched_kept_Update,
               touched_kept_Add, touched_kept_Delete.
Qed.

Lemma updateOffersData_keeps_touched service a isMCA w :
  touched_kept w (snd (updateOffersData service a isMCA w)).
Proof.
  apply updateOffersData_guar; try exact touched_kept_trans;
    auto using touched_kept_refl, touched_kept_Get, touched_kept_Update,
               touched_kept_Add, touched_kept_Delete.
  intros e w0 r I _. exact I.
Qed.

(* ================================================================= *)
(** ** The pipeline: a table written by the pipeline only grows *)

Lemma only_appends_refl w : only_appends w w.
Proof. intros _. exists []. rewrite app_nil_r. auto. Qed.

Lemma only_appends_trans a b c : only_appends a b -> only_appends b c -> only_appends a c.
Proof.
  intros H1 H2 Ha. destruct (H1 Ha) as (x & Ex & Fx).
  assert (Hb : Forall (fun r => col.updated r = true) (table (DB b))).
  { rewrite Ex. apply Forall_app. split; assumption. }
  destruct (H2 Hb) as (y & Ey & Fy).
  exists (x ++ y)%list. split.
  - rewrite Ey, Ex, app_assoc. reflexivity.
  - apply Forall_app. split; assumption.
Qed.

Lemma only_appends_same w w' : table (DB w') = table (DB w) -> only_appends w w'.
Proof. intros E _. exists []. rewrite app_nil_r. auto. Qed.

Lemma only_appends_Add o w : only_appends w (snd (DB_AddOffer o w)).
Proof.
  unfold DB_AddOffer. pose proof (AddOffer_table o (DB w)) as T.
  destruct (AddOffer o (DB w)) as [res db]. simpl in T.
  destruct (isOk res).
  - intros _. simpl. rewrite T. eexists. split; [reflexivity|].
    constructor; [reflexivity | constructor].
  - apply only_appends_same. exact T.
Qed.

Lemma only_appends_Delete w : only_appends w (snd (DB_DeleteOffers w)).
Proof.
  unfold DB_DeleteOffers. pose proof (DeleteOffers_table (DB w)) as T.
  destruct (DeleteOffers (DB w)) as [res db]. simpl in T.
  destruct (isNil res).
  - intros A. simpl. rewrite T, (filter_all_touched _ A).
    exists []. rewrite app_nil_r. auto.
  - apply only_appends_same. exact T.
Qed.

Lemma only_appends_Get id w : only_appends w (snd (DB_GetOffer id w)).
Proof.
  unfold DB_GetOffer. pose proof (GetOffer_table id (DB w)) as T.
  destruct (GetOffer id (DB w)) as [res db]. apply only_appends_same. exact T.
Qed.

Lemma only_appends_Update o w : only_appends w (snd (DB_UpdateOffer o w)).
Proof.
  unfold DB_UpdateOffer. pose proof (UpdateOffer_table o (DB w)) as T.
  destruct (UpdateOffer o (DB w)) as [res db]. apply only_appends_same. exact T.
Qed.

(** No operation of the pipeline clears the flag of a row: on a table whose
    rows are all touched (such as any table the pipeline itself filled),
    updateProducts, sweep included, removes nothing. *)
Lemma updateProducts_only_appends res w : only_appends w (snd (updateProducts res w)).
Proof.
  apply updateProducts_guar; try exact only_appends_trans;
    auto using only_appends_refl, only_appends_Get, only_appends_Update,
               only_appends_Add, only_appends_Delete.
Qed.

Lemma updateOffersData_only_appends service a isMCA w :
  only_appends w (snd (updateOffersData service a isMCA w)).
Proof.
  apply updateOffersData_guar; try exact only_appends_trans;
    auto using only_appends_refl, only_appends_Get, only_appends_Update,
               only_appends_Add, only_appends_Delete.
  intros e w0. apply only_appends_same. reflexivity.
Qed.

(* ================================================================= *)
(** ** The pipeline without faults *)

Lemma next_fault_none db : faults db = [] -> next_fault db = (None, db).
Proof. intros H. unfold next_fault. rewrite H. reflexivity. Qed.

(** When no execution fails, the upsert of a priced product appends one row
    for it, whether or not a row with that offer id is there already. *)
Lemma updateProduct_appends p price w :
  faults (DB w) = [] ->
  content.Product.Price p = Some price ->
  exists n o w',
    updateProduct p w = (Ret None, w') /\
    ID o = stores (DB w) (VARCHAR 255) (content.Product.Id p) /\
    table (DB w') = (table (DB w) ++ [row_of n o])%list /\
    faults (DB w') = [] /\
    sweeps (calls w') = sweeps (calls w).
Proof.
  intros F P. unfold updateProduct. rewrite P.
  set (o := mkOffer _ _ _ _ _ _ _).
  exists (auto_increment (DB w)), (as_stored (DB w) o).
  unfold DB_GetOffer. pose proof (GetOffer_db (content.Product.Id p) (DB w)) as G.
  rewrite (next_fault_none _ F) in G.
  destruct (GetOffer (content.Product.Id p) (DB w)) as [got db1]. simpl in G. subst db1.
  set (w1 := mkWorld (DB w) _).
  set (w2 := match got with Ok _ => snd (DB_UpdateOffer o w1) | Err _ => w1 end).
  assert (D2 : DB w2 = DB w /\ sweeps (calls w2) = sweeps (calls w)).
  { subst w2. destruct got as [x|e].
    - unfold DB_UpdateOffer.
      assert (U : snd (UpdateOffer o (DB w1)) = DB w).
      { unfold UpdateOffer. destruct (String.eqb (ID o) ""); [reflexivity|].
        unfold execAffectingOneRow. rewrite Stmt_Exec_update_short.
        simpl. rewrite (next_fault_none _ F). reflexivity. }
      destruct (UpdateOffer o (DB w1)) as [r db2]. simpl in U. subst db2. simpl.
      split; [reflexivity|]. unfold sweeps. rewrite !filter_app, !length_app. simpl. lia.
    - simpl. split; [reflexivity|].
      unfold sweeps. rewrite !filter_app, !length_app. simpl. lia. }
  destruct D2 as [D2 S2].
  unfold DB_AddOffer. rewrite D2, AddOffer_eq, (next_fault_none _ F). simpl.
  eexists. split; [reflexivity|]. simpl.
  repeat split; try assumption.
  unfold sweeps in *. rewrite filter_app, length_app. simpl. lia.
Qed.

Lemma range_products_healthy ps w :
  faults (DB w) = [] ->
  Forall (fun p => content.Product.Price p <> None) ps ->
  exists w',
    range_products ps w = (Ret None, w') /\
    faults (DB w') = [] /\
    sweeps (calls w') = sweeps (calls w).
Proof.
  revert w. induction ps as [|p ps IH]; intros w F A; simpl.
  - exists w. auto.
  - inversion A as [|? ? Hp A']; subst.
    destruct (content.Product.Price p) as [price|] eqn:P; [|congruence].
    destruct (updateProduct_appends p price w F P) as (n & o & w1 & E & _ & _ & F1 & S1).
    rewrite E. destruct (IH w1 F1 A') as (w2 & E2 & F2 & S2).
    exists w2. rewrite E2. repeat split; [exact F2 | congruence].
Qed.

Lemma updateProducts_healthy res w :
  faults (DB w) = [] -> priced res ->
  exists w',
    updateProducts res w = (Ret None, w') /\
    faults (DB w') = [] /\
    sweeps (calls w') = S (sweeps (calls w)).
Proof.
  intros F A. unfold updateProducts.
  destruct (range_products_healthy _ w F A) as (w1 & E & F1 & S1). rewrite E.
  unfold DB_DeleteOffers, DeleteOffers. rewrite Stmt_Exec_delete, (next_fault_none _ F1).
  simpl. eexists. split; [reflexivity|]. simpl. split; [exact F1|].
  unfold sweeps in *. rewrite filter_app, length_app. simpl. lia.
Qed.

(** Without faults, a list call of n pages runs the sweep n times: once at the
    end of every page. *)
Lemma sweeps_once_per_page id c w :
  faults (DB w) = [] -> healthy c ->
  exists w',
    Pages (ApiProductsList id) updateProducts c w = (Ret None, w') /\
    faults (DB w') = [] /\
    sweeps (calls w') = (sweeps (calls w) + pages c)%nat.
Proof.
  revert w. induction c as [err|x|x rest IH]; intros w F H; simpl in *.
  - contradiction.
  - destruct (updateProducts_healthy x (record (ApiProductsList id true) w) F H)
      as (w1 & E & F1 & S1).
    exists w1. rewrite E. repeat split; [exact F1|].
    rewrite S1. unfold record, sweeps. simpl. rewrite filter_app, length_app. simpl. lia.
  - destruct H as [Hx Hrest].
    destruct (updateProducts_healthy x (record (ApiProductsList id true) w) F Hx)
      as (w1 & E & F1 & S1).
    rewrite E. destruct (IH w1 F1 Hrest) as (w2 & E2 & F2 & S2).
    exists w2. rewrite E2. repeat split; [exact F2|].
    rewrite S2, S1. unfold record, sweeps. simpl. rewrite filter_app, length_app. simpl. lia.
Qed.

(* ================================================================= *)
(** ** The pipeline on concrete stores and catalogs *)

(** Upserting an offer id that is stored already leaves two rows with that
    id: AddOffer runs after the lookup whatever the lookup found. *)
Lemma upsert_of_stored_id_duplicates p price w :
  faults (DB w) = [] ->
  content.Product.Price p = Some price ->
  In (stores (DB w) (VARCHAR 255) (content.Product.Id p)) (offerIds (DB w)) ->
  ~ NoDup (offerIds (DB (snd (updateProduct p w)))).
Proof.
  intros F P I N.
  destruct (updateProduct_appends p price w F P) as (n & o & w' & E & Ho & T & _).
  rewrite E in N. simpl in N. unfold offerIds in *. rewrite T, map_app in N.
  simpl in N. rewrite Ho in N.
  apply NoDup_remove_2 in N. apply N. rewrite app_nil_r. exact I.
Qed.

(** C1. Evaluated on the code: a second pass over a catalog that still lists
    offer A finds the row of the first pass, fails to update it, and inserts A
    again; the store then holds two rows with offer id A. *)
Theorem second_pass_duplicates_offer :
  let pass := updateProducts (page [product "A" "Red Kettle"]) in
  let w1 := snd (pass (mkWorld fresh [])) in
  let w2 := snd (pass (mkWorld (DB w1) [])) in
  offerIds (DB w1) = ["A"] /\
  fst (pass (mkWorld (DB w1) [])) = Ret None /\
  calls w2 = [CallGetOffer "A" true; CallUpdateOffer "A" false;
              CallAddOffer "A" true; CallDeleteOffers true] /\
  map col.id (table (DB w2)) = [1%N; 2%N] /\
  offerIds (DB w2) = ["A"; "A"] /\
  ~ NoDup (offerIds (DB w2)).
Proof.
  cbv zeta.
  assert (E : offerIds (DB (snd (updateProducts (page [product "A" "Red Kettle"])
                (mkWorld (DB (snd (updateProducts (page [product "A" "Red Kettle"])
                                     (mkWorld fresh [])))) []))))
              = ["A"; "A"]) by (vm_compute; reflexivity).
  repeat split; try (vm_compute; reflexivity).
  rewrite E. intros N. inversion N as [|x l H _]; subst. apply H. left. reflexivity.
Qed.

(** C2. Evaluated on the code: the store holds A, B and C from an earlier
    pass; a pass whose only page lists A and B, sweep included, leaves five
    rows, and C is one of them.  Every row was written touched and nothing
    clears the flag, so the sweep finds no row to delete. *)
Theorem sweep_after_pass_keeps_absent_offer :
  let db := populate [offer "A" "a"; offer "B" "b"; offer "C" "c"] fresh in
  let r := updateProducts (page [product "A" "a"; product "B" "b"]) (mkWorld db []) in
  offerIds db = ["A"; "B"; "C"] /\
  map col.updated (table db) = [true; true; true] /\
  fst r = Ret None /\
  calls (snd r) = [CallGetOffer "A" true; CallUpdateOffer "A" false; CallAddOffer "A" true;
                   CallGetOffer "B" true; CallUpdateOffer "B" false; CallAddOffer "B" true;
                   CallDeleteOffers true] /\
  offerIds (DB (snd r)) = ["A"; "B"; "C"; "A"; "B"] /\
  In "C" (offerIds (DB (snd r))).
Proof.
  cbv zeta. repeat split; try (vm_compute; reflexivity).
  vm_compute. right. right. left. reflexivity.
Qed.

(** C3. Evaluated on the code: one merchant, two pages.  DeleteOffers runs
    twice, and its first run comes before page 2 is requested. *)
Theorem sweep_runs_after_every_page :
  let r := updateOffersData (catalog two_pages) merchant false (mkWorld fresh []) in
  fst r = Ret tt /\
  calls (snd r) = [ApiProductsList 1 true;
                   CallGetOffer "X1" false; CallAddOffer "X1" true; CallDeleteOffers true;
                   ApiProductsList 1 true;
                   CallGetOffer "X2" false; CallAddOffer "X2" true; CallDeleteOffers true] /\
  sweeps (calls (snd r)) = 2%nat.
Proof. cbv zeta. repeat split; vm_compute; reflexivity. Qed.

(** C4. Evaluated on the code: one merchant, two pages, and the connection
    fails at the insert of X2, the second record of the pass.  DeleteOffers
    has run by then, at the end of page 1; X1 is still stored. *)
Theorem sweep_runs_in_a_failed_pass :
  let db := set_faults [None; None; None; None; Some (OtherError "invalid connection")] fresh in
  let r := updateOffersData (catalog two_pages) merchant false (mkWorld db []) in
  fst r = Ret tt /\
  calls (snd r) = [ApiProductsList 1 true;
                   CallGetOffer "X1" false; CallAddOffer "X1" true; CallDeleteOffers true;
                   ApiProductsList 1 true;
                   CallGetOffer "X2" false; CallAddOffer "X2" false] /\
  sweeps (calls (snd r)) = 1%nat /\
  offerIds (DB (snd r)) = ["X1"].
Proof. cbv zeta. repeat split; vm_compute; reflexivity. Qed.

(** C5. Evaluated on the code: the store holds A; the page lists A and B.
    UpdateOffer fails on A, and updateProducts goes on: it inserts A, handles
    B, sweeps, and returns nil. *)
Theorem failed_update_does_not_stop_page :
  let db := populate [offer "A" "old"] fresh in
  let r := updateProducts (page [product "A" "new"; product "B" "b"]) (mkWorld db []) in
  isNil (fst (UpdateOffer (offer "A" "new") db)) = false /\
  fst r = Ret None /\
  calls (snd r) = [CallGetOffer "A" true; CallUpdateOffer "A" false; CallAddOffer "A" true;
                   CallGetOffer "B" false; CallAddOffer "B" true;
                   CallDeleteOffers true] /\
  offerIds (DB (snd r)) = ["A"; "A"; "B"].
Proof. cbv zeta. repeat split; vm_compute; reflexivity. Qed.

Lemma range_products_app pre l w :
  range_products (pre ++ l) w =
  match range_products pre w with
  | (Ret None, w0) => range_products l w0
  | stop => stop
  end.
Proof.
  revert w. induction pre as [|p pre IH]; intros w; simpl.
  - reflexivity.
  - destruct (updateProduct p w) as [[[e|]| |] w1]; try reflexivity. apply IH.
Qed.

Lemma DB_AddOffer_calls o w :
  calls (snd (DB_AddOffer o w))
  = (calls w ++ [CallAddOffer (ID o) (isOk (fst (DB_AddOffer o w)))])%list.
Proof. unfold DB_AddOffer. destruct (AddOffer o (DB w)); reflexivity. Qed.

(** updateProduct returns an error only when AddOffer has just failed. *)
Lemma updateProduct_error p w err w1 :
  updateProduct p w = (Ret (Some err), w1) ->
  exists l, calls w1 = (l ++ [CallAddOffer (content.Product.Id p) false])%list.
Proof.
  unfold updateProduct. destruct (content.Product.Price p) as [price|]; [|discriminate].
  destruct (DB_GetOffer _ w) as [got w0].
  match goal with
  | |- context [DB_AddOffer ?o ?w] => pose proof (DB_AddOffer_calls o w) as C;
                                     destruct (DB_AddOffer o w) as [[z|e] w3]
  end.
  - discriminate.
  - intros H. injection H as _ <-. eexists. exact C.
Qed.

(** The insert path does what C5 says: when the insert of a record fails,
    updateProducts returns that error at once; the rest of the page is not
    processed and the page is not swept. *)
Lemma failed_insert_stops_page pre p rest w w0 w1 err :
  range_products pre w = (Ret None, w0) ->
  updateProduct p w0 = (Ret (Some err), w1) ->
  updateProducts (page (pre ++ p :: rest)) w = (Ret (Some err), w1).
Proof.
  intros H0 H1. unfold updateProducts, page. simpl.
  rewrite range_products_app, H0. simpl. rewrite H1. reflexivity.
Qed.

(* ================================================================= *)
(** ** The pipeline: the log only grows *)

Lemma log_extends_refl w : log_extends w w.
Proof. exists []. rewrite app_nil_r. reflexivity. Qed.

Lemma log_extends_trans a b c : log_extends a b -> log_extends b c -> log_extends a c.
Proof.
  intros [x Hx] [y Hy]. exists (x ++ y)%list. rewrite Hy, Hx, app_assoc. reflexivity.
Qed.

Lemma log_extends_record e w : log_extends w (record e w).
Proof. exists [e]. reflexivity. Qed.

Lemma updateOffersData_log_extends service a isMCA w :
  log_extends w (snd (updateOffersData service a isMCA w)).
Proof.
  apply updateOffersData_guar; try exact log_extends_trans;
    auto using log_extends_refl, log_extends_record.
  - intros id w0. unfold DB_GetOffer. destruct (GetOffer id (DB w0)). eexists. reflexivity.
  - intros o w0. unfold DB_UpdateOffer. destruct (UpdateOffer o (DB w0)). eexists. reflexivity.
  - intros o w0. unfold DB_AddOffer. destruct (AddOffer o (DB w0)). eexists. reflexivity.
  - intros w0. unfold DB_DeleteOffers. destruct (DeleteOffers (DB w0)). eexists. reflexivity.
Qed.

(* ================================================================= *)
(** ** The driver: which account is synchronised *)

(** C8, as the specification states it, fails: the identity has access to
    merchant 1, and RunUpdate with id 0 ends the process without a single
    request to the Content API. *)
Lemma RunUpdate_rejects_zero_id :
  content.Accounts_Authinfo (catalog two_pages)
  = Ok (content.AccountsAuthInfoResponse.mk [content.AccountIdentifier.mk 0 1]) /\
  RunUpdate (catalog two_pages) workstation 0 "" (mkWorld fresh [])
  = (Exited (Fatal_msg "valid merchant_id should be provided"), mkWorld fresh []).
Proof. split; reflexivity. Qed.

(** C8, amended. The account identifier is not optional: with id 0 RunUpdate
    ends the process before any request to the Content API and before any
    call to the store.  retrieve, for whatever id, first asks for the accounts
    the identity has access to and ends the process when there is none; with
    a non-zero id and at least one accessible account, the account it fetches
    next is the one with that id. *)
Theorem RunUpdate_needs_explicit_id (service : content.APIService) (env : Env) :
  (forall logFile w,
     RunUpdate service env 0 logFile w
     = (Exited (match user_Current env with
                | Err err => Fatal_err err
                | Ok _ => Fatal_msg "valid merchant_id should be provided"
                end), w)) /\
  (forall id w,
     content.Accounts_Authinfo service = Ok (content.AccountsAuthInfoResponse.mk []) ->
     retrieve service id w
     = (Exited (Fatal_msg
          "The current authenticated user has no access to any Merchant Center accounts."),
        record (ApiAuthinfo true) w)) /\
  (forall id w authinfo,
     id <> 0%Z ->
     content.Accounts_Authinfo service = Ok authinfo ->
     content.AccountsAuthInfoResponse.AccountIdentifiers authinfo <> [] ->
     exists ok rest,
       calls (snd (retrieve service id w))
       = (calls w ++ [ApiAuthinfo true; ApiAccountsGet (uint64 id) ok] ++ rest)%list).
Proof.
  split; [|split].
  - intros logFile w. unfold RunUpdate. destruct (user_Current env); reflexivity.
  - intros id w H. unfold retrieve. rewrite H. reflexivity.
  - intros id w authinfo Hid H N. unfold retrieve. rewrite H.
    destruct (content.AccountsAuthInfoResponse.AccountIdentifiers authinfo) as [|i ids];
      [contradiction|].
    apply Z.eqb_neq in Hid. rewrite Hid.
    destruct (content.Accounts_Get service (uint64 id) (uint64 id)) as [account|err].
    + exists true.
      match goal with
      | |- context [updateOffersData service account ?m ?w2] =>
          destruct (updateOffersData_log_extends service account m w2) as [evs E]
      end.
      exists evs. rewrite E. simpl. rewrite <- !app_assoc. reflexivity.
    + exists false, []. unfold dumpAPIErrorAndStop.
      destruct err; simpl; rewrite <- app_assoc; reflexivity.
Qed.

Lemma RunUpdate_needs_explicit_id_witness :
  content.Accounts_Authinfo no_accounts = Ok (content.AccountsAuthInfoResponse.mk []) /\
  retrieve no_accounts 1 (mkWorld fresh [])
  = (Exited (Fatal_msg
       "The current authenticated user has no access to any Merchant Center accounts."),
     mkWorld fresh [ApiAuthinfo true]).
Proof.
  split; [reflexivity|].
  apply (RunUpdate_needs_explicit_id no_accounts workstation). reflexivity.
Defined.

(* ================================================================= *)
(** ** Construction of the store: which errors stop it *)

(** C9, as the specification states it, fails.  The ping of the check times
    out, which is not one of the two not-found codes.  The error is dropped:
    the check goes on, both statements succeed, no table is created, and the
    store is built. *)
Lemma ensureTableExists_drops_ping_error :
  sql_Open slow_start (dataStoreName localhost "") = None /\
  conn_Ping slow_start (dataStoreName localhost "")
  = Some (OtherError "dial tcp: i/o timeout") /\
  ensureTableExists localhost slow_start = (None, ["USE library"; "DESCRIBE offers"]) /\
  fst (newMySQLDB localhost slow_start) = Ok [list_; get; insert; update; delete].
Proof. repeat split; vm_compute; reflexivity. Qed.

(** C9, amended. createTable is attempted only after error 1049 from
    [USE library] or error 1146 from [DESCRIBE offers].  Construction fails
    with the error when the connection cannot be opened, when the ping
    reports driver.ErrBadConn, and when [DESCRIBE offers], once reached, fails
    with anything but 1146.  Another error of the ping is not a failure of
    the check: when both statements then succeed, so does the check.  An
    error of ensureTableExists is the result of newMySQLDB. *)
Theorem ensureTableExists_discipline (config : MySQLConfig) (srv : Server) :
  let dsn := dataStoreName config "" in
  let r := ensureTableExists config srv in
  (create_attempted (snd r) ->
   (exists m, conn_Exec srv "USE library" = Some (MySQLError 1049 m)) \/
   (exists m, conn_Exec srv "DESCRIBE offers" = Some (MySQLError 1146 m))) /\
  (forall err, sql_Open srv dsn = Some err ->
     r = (Some (Errorf_v "mysql: could not get a connection: %v" err), [])) /\
  (sql_Open srv dsn = None -> conn_Ping srv dsn = Some ErrBadConn ->
     isNil (fst r) = false /\ snd r = []) /\
  (forall err,
     sql_Open srv dsn = None -> conn_Ping srv dsn <> Some ErrBadConn ->
     (forall m, conn_Exec srv "USE library" <> Some (MySQLError 1049 m)) ->
     conn_Exec srv "DESCRIBE offers" = Some err ->
     (forall m, err <> MySQLError 1146 m) ->
     r = (Some (Errorf_v "mysql: could not connect to the database: %v" err),
          ["USE library"; "DESCRIBE offers"])) /\
  (sql_Open srv dsn = None -> conn_Ping srv dsn <> Some ErrBadConn ->
   conn_Exec srv "USE library" = None ->
   conn_Exec srv "DESCRIBE offers" = None ->
   r = (None, ["USE library"; "DESCRIBE offers"])) /\
  (forall err, fst r = Some err -> fst (newMySQLDB config srv) = Err err).
Proof.
  cbv zeta.
  assert (P : forall e, e <> Some ErrBadConn -> isErrBadConn e = false).
  { intros [[]|] H; try reflexivity. congruence. }
  assert (U : forall e, (forall m, e <> Some (MySQLError 1049 m)) ->
              match e with Some err => hasNumber 1049 err | None => false end = false).
  { intros [[]|] H; try reflexivity. simpl.
    destruct (N.eqb_spec Number 1049) as [->|]; [|reflexivity].
    exfalso. eapply H. reflexivity. }
  assert (D : forall err, (forall m, err <> MySQLError 1146 m) -> hasNumber 1146 err = false).
  { intros [] H; try reflexivity. simpl.
    destruct (N.eqb_spec Number 1146) as [->|]; [|reflexivity].
    exfalso. eapply H. reflexivity. }
  split; [|split; [|split; [|split; [|split]]]].
  - unfold ensureTableExists, create_attempted.
    destruct (sql_Open srv _); [intros []|].
    destruct (isErrBadConn _); [intros []|].
    destruct (conn_Exec srv "USE library") as [e1|] eqn:E1.
    + destruct e1; simpl; try (destruct (N.eqb_spec Number 1049) as [->|]; [eauto|]);
        (destruct (conn_Exec srv "DESCRIBE offers") as [e2|] eqn:E2;
         [ destruct e2; simpl;
           try (destruct (N.eqb_spec Number0 1146) as [->|]; [eauto|]);
           try (destruct (N.eqb_spec Number 1146) as [->|]; [eauto|]);
           intros [H|[H|[]]]; discriminate
         | simpl; intros [H|[H|[]]]; discriminate ]).
    + destruct (conn_Exec srv "DESCRIBE offers") as [e2|] eqn:E2.
      * destruct e2; simpl;
          try (destruct (N.eqb_spec Number 1146) as [->|]; [eauto|]);
          intros [H|[H|[]]]; discriminate.
      * simpl. intros [H|[H|[]]]; discriminate.
  - intros err H. unfold ensureTableExists. rewrite H. reflexivity.
  - intros H1 H2. unfold ensureTableExists. rewrite H1, H2. split; reflexivity.
  - intros err H1 H2 H3 H4 H5. unfold ensureTableExists.
    rewrite H1, (P _ H2), (U _ H3), H4, (D _ H5). reflexivity.
  - intros H1 H2 H3 H4. unfold ensureTableExists.
    rewrite H1, (P _ H2), H3, H4. reflexivity.
  - intros err H. unfold newMySQLDB.
    destruct (ensureTableExists config srv) as [[e|] sent]; simpl in *.
    + congruence.
    + discriminate.
Qed.

Lemma ensureTableExists_discipline_witness :
  create_attempted (snd (ensureTableExists localhost no_database)) /\
  ((exists m, conn_Exec no_database "USE library" = Some (MySQLError 1049 m)) \/
   (exists m, conn_Exec no_database "DESCRIBE offers" = Some (MySQLError 1146 m))).
Proof.
  assert (C : create_attempted (snd (ensureTableExists localhost no_database))).
  { vm_compute. right. left. reflexivity. }
  split; [exact C|].
  apply (ensureTableExists_discipline localhost no_database). exact C.
Defined.

(* ================================================================= *)
(** ** The store: lookups, inserts and the list window *)

Lemma offer_of_row_of n o : offer_of_row (row_of n o) = o.
Proof. destruct o. reflexivity. Qed.

Lemma offerId_row_of n o : col.offerId (row_of n o) = ID o.
Proof. reflexivity. Qed.

(** A value of ASCII bytes that is not longer than a VARCHAR column is stored
    as it is. *)
Lemma utf8_cut_fits n s :
  isASCII s = true ->
  (N.of_nat (String.length s) <= n)%N ->
  utf8_cut (VARCHAR n) s = s.
Proof.
  unfold utf8_cut. revert n. induction s as [|a s IH]; intros n A L; [reflexivity|].
  simpl in A. apply andb_prop in A as [A1 A2].
  assert (B : (N_of_ascii a <? 128)%N = true).
  { apply N.ltb_lt. apply Nat.ltb_lt in A1. unfold RuneSelf, nat_of_ascii in A1. lia. }
  assert (R : (1 <=? n)%N = true).
  { apply N.leb_le. simpl String.length in L. lia. }
  cbn [clip]. cbv zeta. rewrite B, R. f_equal.
  apply IH; [exact A2|]. simpl String.length in L. lia.
Qed.

(** A value longer than the column is cut to the length of the column. *)
Example long_url_is_cut :
  String.length (MerchantURL long_url) = 300%nat /\
  String.length (MerchantURL (as_stored fresh long_url)) = 255%nat /\
  String.prefix (MerchantURL (as_stored fresh long_url)) (MerchantURL long_url) = true.
Proof. vm_compute. repeat split. Qed.

(** A value is cut before its first character of four bytes. *)
Example four_bytes_is_cut :
  String.length (Title four_bytes) = 8%nat /\
  Title (as_stored fresh four_bytes) = "Mug ".
Proof. vm_compute. repeat split. Qed.

(** An insert that the server rejects returns the error of the server,
    wrapped, and stores nothing. *)
Example rejected_insert :
  AddOffer long_url strict_rejects
  = (Err (Errorf_v "mysql: could not execute statement: %v"
            (MySQLError 1406 "Data too long for column 'merchantUrl' at row 1")),
     fresh).
Proof. reflexivity. Qed.

Lemma GetOffer_eq id db :
  fst (next_fault db) = None ->
  GetOffer id db =
  (match filter (fun r => collate db (col.offerId r) id) (table db) with
   | [] => Err (Errorf_s "mysql: could not find offer with id %s" id)
   | r :: _ => Ok (offer_of_row r)
   end, snd (next_fault db)).
Proof.
  intros H. unfold GetOffer, Stmt_QueryRow, Stmt_Query.
  pose proof (next_fault_table db) as T. pose proof (next_fault_collate db) as C.
  destruct (next_fault db) as [f db1]. simpl in *. subst f. simpl.
  rewrite T, C. destruct (filter _ _); reflexivity.
Qed.

Lemma filter_nil_iff {A} (f : A -> bool) l :
  filter f l = [] <-> forall x, In x l -> f x = false.
Proof.
  induction l as [|a l IH]; simpl.
  - split; [intros _ x [] | reflexivity].
  - destruct (f a) eqn:E.
    + split; [discriminate|]. intros H. rewrite (H a) in E by (left; reflexivity).
      discriminate.
    + rewrite IH. split.
      * intros H x [<-|I]; [exact E | apply H; exact I].
      * intros H x I. apply H. right. exact I.
Qed.

(** X1. A lookup that meets no fault finds an offer exactly when a row
    matches the key under the collation of the table; a miss is the error
    "could not find offer with id", and the table is as before. *)
Theorem GetOffer_found_iff (id : string) (db : mysqlDB) :
  fst (next_fault db) = None ->
  (isOk (fst (GetOffer id db)) = true <-> stored db id) /\
  (~ stored db id ->
   fst (GetOffer id db) = Err (Errorf_s "mysql: could not find offer with id %s" id)) /\
  table (snd (GetOffer id db)) = table db.
Proof.
  intros H. rewrite (GetOffer_eq id db H). cbn [fst snd].
  assert (S : stored db id <-> filter (fun r => collate db (col.offerId r) id) (table db) <> []).
  { unfold stored. split.
    - intros (r & I & C) E. rewrite filter_nil_iff in E. rewrite (E r I) in C. discriminate.
    - intros N. destruct (filter _ _) as [|r l] eqn:E; [contradiction|].
      assert (I : In r (r :: l)) by (left; reflexivity).
      rewrite <- E in I. apply filter_In in I. exists r. exact I. }
  split; [|split].
  - rewrite S. destruct (filter _ _); simpl; split; congruence.
  - intros N. destruct (filter _ _) eqn:E; [reflexivity|].
    exfalso. apply N, S. discriminate.
  - apply next_fault_table.
Qed.

Lemma GetOffer_found_iff_witness :
  fst (next_fault fresh) = None /\
  fst (GetOffer "A" fresh) = Err (Errorf_s "mysql: could not find offer with id %s" "A").
Proof.
  split; [reflexivity|].
  apply (GetOffer_found_iff "A" fresh); [reflexivity|].
  intros (r & [] & _).
Defined.

(** X2. Insert, then look up.  When no execution fails and no row matched
    the ID before, GetOffer returns the very offer AddOffer was given exactly
    when the server keeps every field of the offer as it is (each fits its
    column: VARCHAR(255), TEXT for the description, charset utf8) and the ID
    matches itself under the collation.  An offer with a field the server
    cuts does not come back as it was given. *)
Theorem GetOffer_after_AddOffer (o : Offer) (db : mysqlDB) :
  faults db = [] ->
  ~ stored db (ID o) ->
  (fst (GetOffer (ID o) (snd (AddOffer o db))) = Ok o <->
   offer_kept db o /\ collate db (ID o) (ID o) = true).
Proof.
  intros F N. rewrite AddOffer_eq, (next_fault_none db F). cbn [fst snd].
  rewrite GetOffer_eq by (unfold next_fault; simpl; rewrite F; reflexivity).
  cbn [fst table collate]. rewrite filter_app.
  assert (E : filter (fun r => collate db (col.offerId r) (ID o)) (table db) = []).
  { apply filter_nil_iff. intros r I.
    destruct (collate db (col.offerId r) (ID o)) eqn:X; [|reflexivity].
    exfalso. apply N. exists r. auto. }
  unfold Row in *. rewrite E. cbn [app filter].
  rewrite offerId_row_of.
  unfold offer_kept.
  destruct (collate db (ID (as_stored db o)) (ID o)) eqn:C.
  - rewrite offer_of_row_of. split.
    + intros H. injection H as H. split; [exact H|]. rewrite H in C. exact C.
    + intros [H _]. rewrite H. reflexivity.
  - split; [discriminate|]. intros [H K]. rewrite H in C. congruence.
Qed.

Lemma GetOffer_after_AddOffer_witness :
  faults fresh = [] /\
  fst (GetOffer "K" (snd (AddOffer (offer "K" "Red Kettle") fresh)))
  = Ok (offer "K" "Red Kettle") /\
  fst (GetOffer "L" (snd (AddOffer long_url fresh))) <> Ok long_url.
Proof.
  split; [reflexivity|]. split.
  - apply (GetOffer_after_AddOffer (offer "K" "Red Kettle") fresh); [reflexivity| |].
    + intros (r & [] & _).
    + split; reflexivity.
  - intros H.
    apply (GetOffer_after_AddOffer long_url fresh) in H;
      [|reflexivity|intros (r & [] & _)].
    destruct H as [H _].
    apply (f_equal (fun o => String.length (MerchantURL o))) in H.
    vm_compute in H. discriminate.
Defined.

(** X3. GetOffer answers with the oldest matching row: once an ID is found,
    no later AddOffer, with that ID or another, changes what GetOffer returns
    for it. *)
Theorem GetOffer_unchanged_by_AddOffer (id : string) (o o0 : Offer) (db : mysqlDB) :
  faults db = [] ->
  fst (GetOffer id db) = Ok o0 ->
  fst (GetOffer id (snd (AddOffer o db))) = Ok o0.
Proof.
  intros F G. pose proof (next_fault_none db F) as NF.
  rewrite GetOffer_eq in G by (rewrite NF; reflexivity). cbn [fst] in G.
  rewrite AddOffer_eq, NF. cbn [fst snd].
  rewrite GetOffer_eq by (unfold next_fault; simpl; rewrite F; reflexivity).
  cbn [fst table collate]. rewrite filter_app. unfold Row in *.
  destruct (filter (fun r => collate db (col.offerId r) id) (table db)) as [|r l];
    [discriminate|].
  exact G.
Qed.

Lemma GetOffer_unchanged_by_AddOffer_witness :
  faults (populate [offer "A" "old"] fresh) = [] /\
  fst (GetOffer "A" (snd (AddOffer (offer "A" "new") (populate [offer "A" "old"] fresh))))
  = Ok (offer "A" "old").
Proof.
  split; [reflexivity|].
  apply (GetOffer_unchanged_by_AddOffer "A" (offer "A" "new") (offer "A" "old")
           (populate [offer "A" "old"] fresh)); reflexivity.
Defined.



Lemma ListOffers_eq db :
  ListOffers db =
  (match fst (next_fault db) with
   | Some e => Err e
   | None => Ok (map offer_of_row (firstn 50 (table db)))
   end, snd (next_fault db)).
Proof.
  unfold ListOffers. rewrite Stmt_Query_list.
  destruct (fst (next_fault db)); [reflexivity|].
  rewrite scan_rows_filter. f_equal. f_equal.
  induction (map offer_of_row (firstn 50 (table db))) as [|a l IH]; simpl; congruence.
Qed.

(** X5. ListOffers returns the first rows of the table, in order, and never
    more than 50 of them; it fails only on a connection fault. *)
Theorem ListOffers_window (db : mysqlDB) :
  fst (next_fault db) = None ->
  exists l,
    fst (ListOffers db) = Ok l /\
    l = map offer_of_row (firstn 50 (table db)) /\
    length l = Nat.min 50 (length (table db)) /\
    (length l <= 50)%nat.
Proof.
  intros H. rewrite ListOffers_eq, H. eexists. split; [reflexivity|].
  split; [reflexivity|]. rewrite length_map, length_firstn. lia.
Qed.

Lemma ListOffers_window_witness :
  fst (next_fault store51) = None /\
  exists l, fst (ListOffers store51) = Ok l /\ length l = 50%nat.
Proof.
  split; [reflexivity|].
  destruct (ListOffers_window store51 eq_refl) as (l & E & _ & L & _).
  exists l. split; [exact E|]. rewrite L. reflexivity.
Defined.

(** X6. Whatever SearchOffers returns is part of what ListOffers shows on the
    same store, and it is never the empty list. *)
Theorem SearchOffers_within_ListOffers
        (lower : string -> string) (q : string) (db : mysqlDB) (hits : list Offer) :
  fst (SearchOffers lower q db) = Ok hits ->
  hits <> [] /\
  exists l, fst (ListOffers db) = Ok l /\ incl hits l.
Proof.
  intros S. unfold SearchOffers in S. rewrite Stmt_Query_list in S.
  rewrite ListOffers_eq. destruct (fst (next_fault db)); [discriminate|].
  rewrite scan_rows_filter in S.
  destruct (filter _ _) as [|h t] eqn:E; [discriminate|].
  injection S as <-. split; [discriminate|].
  eexists. split; [reflexivity|].
  intros x I. rewrite <- E in I. apply filter_In in I. apply I.
Qed.

Lemma SearchOffers_within_ListOffers_witness :
  fst (SearchOffers asciiOnly "kettle" (populate [offer "K" "Red Kettle"] fresh))
  = Ok [offer "K" "Red Kettle"] /\
  exists l, fst (ListOffers (populate [offer "K" "Red Kettle"] fresh)) = Ok l /\
            incl [offer "K" "Red Kettle"] l.
Proof.
  split; [reflexivity|].
  apply (SearchOffers_within_ListOffers asciiOnly "kettle"
           (populate [offer "K" "Red Kettle"] fresh) [offer "K" "Red Kettle"]).
  reflexivity.
Defined.

(** X7. Once the table holds 50 rows, an inserted offer shows neither in
    ListOffers nor in SearchOffers: both answer as before the insert. *)
Theorem insert_beyond_window_is_invisible
        (lower : string -> string) (q : string) (o : Offer) (db : mysqlDB) :
  faults db = [] ->
  (50 <= length (table db))%nat ->
  fst (ListOffers (snd (AddOffer o db))) = fst (ListOffers db) /\
  fst (SearchOffers lower q (snd (AddOffer o db))) = fst (SearchOffers lower q db).
Proof.
  intros F L. pose proof (next_fault_none db F) as NF.
  rewrite AddOffer_eq, NF. cbn [fst snd].
  set (db' := mkDB _ _ _ _ _).
  assert (NF' : fst (next_fault db') = None)
    by (unfold next_fault, db'; simpl; rewrite F; reflexivity).
  assert (W : firstn 50 (table db') = firstn 50 (table db)).
  { unfold db'. cbn [table]. rewrite firstn_app.
    replace (50 - length (table db))%nat with 0%nat by lia.
    rewrite firstn_O, app_nil_r. reflexivity. }
  split.
  - rewrite !ListOffers_eq, NF', NF. cbn [fst]. rewrite W. reflexivity.
  - rewrite (SearchOffers_eq lower q db') by exact NF'.
    rewrite (SearchOffers_eq lower q db) by (rewrite NF; reflexivity).
    cbn [fst]. rewrite W. reflexivity.
Qed.

Lemma insert_beyond_window_is_invisible_witness :
  faults store51 = [] /\
  (50 <= length (table store51))%nat /\
  fst (SearchOffers asciiOnly "teapot" (snd (AddOffer (offer "T" "Teapot") store51)))
  = fst (SearchOffers asciiOnly "teapot" store51).
Proof.
  split; [reflexivity|]. split; [vm_compute; repeat constructor|].
  apply (insert_beyond_window_is_invisible asciiOnly "teapot" (offer "T" "Teapot") store51).
  - reflexivity.
  - vm_compute. repeat constructor.
Defined.

(* ================================================================= *)
(** ** The store: the sweep, the query and NULL columns *)




Lemma matches_fold lower q q' o :
  isASCII q = true -> isASCII q' = true -> equalFold q q' ->
  matches lower q o = matches lower q' o.
Proof.
  intros A A' E. unfold matches.
  rewrite (ToLower_ascii lower q A), (ToLower_ascii lower q' A'), E. reflexivity.
Qed.

(** X9. The case of the letters of an ASCII query does not matter: two
    queries equal up to case get the same offers from SearchOffers. *)
Theorem SearchOffers_ignores_case_of_query
        (lower : string -> string) (q q' : string) (db : mysqlDB) (hits : list Offer) :
  isASCII q = true -> isASCII q' = true -> equalFold q q' ->
  fst (SearchOffers lower q db) = Ok hits ->
  fst (SearchOffers lower q' db) = Ok hits.
Proof.
  intros A A' E. unfold SearchOffers. rewrite Stmt_Query_list.
  destruct (fst (next_fault db)); [discriminate|].
  rewrite !scan_rows_filter.
  rewrite (filter_ext (matches lower q) (matches lower q'))
    by (intros o; apply matches_fold; assumption).
  destruct (filter _ _); [discriminate | exact (fun H => H)].
Qed.

Lemma SearchOffers_ignores_case_of_query_witness :
  equalFold "KeTTle" "kettle" /\
  fst (SearchOffers asciiOnly "kettle" (populate [offer "K" "Red Kettle"] fresh))
  = Ok [offer "K" "Red Kettle"].
Proof.
  split; [reflexivity|].
  apply (SearchOffers_ignores_case_of_query asciiOnly "KeTTle" "kettle"
           (populate [offer "K" "Red Kettle"] fresh) [offer "K" "Red Kettle"]);
    reflexivity.
Defined.

(** X10. A row whose description is NULL is scanned as an offer with the
    empty description, and no ASCII query but the empty one finds it. *)
Theorem null_description_is_found_by_no_query
        (lower : string -> string) (q : string) (r : Row) :
  col.description r = None ->
  isASCII q = true -> q <> "" ->
  Description (offer_of_row r) = "" /\
  matches lower q (offer_of_row r) = false.
Proof.
  intros D A N. unfold matches, offer_of_row. cbn [Description]. rewrite D.
  split; [reflexivity|]. cbn [NullString_String].
  rewrite (ToLower_ascii lower q A). replace (ToLower lower "") with "" by reflexivity.
  destruct q as [|c q]; [contradiction|]. reflexivity.
Qed.

Lemma null_description_is_found_by_no_query_witness :
  fst (SearchOffers asciiOnly "title" stale_store)
  = Err (Errorf_s "mysql: could not find offer with description %s" "title") /\
  matches asciiOnly "title"
    (offer_of_row (col.mkRow 2 "NEW" (Some "new title") None None None None None true))
  = false.
Proof.
  split; [reflexivity|].
  apply (null_description_is_found_by_no_query asciiOnly "title"
           (col.mkRow 2 "NEW" (Some "new title") None None None None None true));
    [reflexivity | reflexivity | discriminate].
Defined.

(* ================================================================= *)
(** ** The driver: what holds of every pass holds of every run *)

Section Run.

Variable R : World -> World -> Prop.
Hypothesis R_refl : forall w, R w w.
Hypothesis R_trans : forall a b c, R a b -> R b c -> R a c.
Hypothesis R_record : forall e w, R w (record e w).
Hypothesis R_pass : forall service a isMCA w, R w (snd (updateOffersData service a isMCA w)).

Variable service : content.APIService.

Lemma retrieve_guar id w : R w (snd (retrieve service id w)).
Proof.
  unfold retrieve.
  destruct (content.Accounts_Authinfo service) as [authinfo|err].
  - destruct (content.AccountsAuthInfoResponse.AccountIdentifiers authinfo) as [|i ids];
      [apply R_record|].
    match goal with
    | |- context [content.Accounts_Get service ?a ?b] =>
        destruct (content.Accounts_Get service a b) as [account|err]
    end.
    + eapply R_trans; [apply R_record|].
      eapply R_trans; [apply R_record | apply R_pass].
    + unfold dumpAPIErrorAndStop.
      destruct err; simpl; (eapply R_trans; [apply R_record | apply R_record]).
  - unfold dumpAPIErrorAndStop. destruct err; simpl; apply R_record.
Qed.

Variable env : Env.

Lemma RunUpdate_service_guar id w : R w (snd (RunUpdate_service service env id w)).
Proof.
  unfold RunUpdate_service.
  destruct (content_New env); [apply R_refl|].
  destruct (negb _); [|apply retrieve_guar].
  destruct (url_Parse env _) as [[|]|]; try apply R_refl. apply retrieve_guar.
Qed.

Lemma RunUpdate_guar id logFile w : R w (snd (RunUpdate service env id logFile w)).
Proof.
  unfold RunUpdate.
  destruct (user_Current env); [|apply R_refl].
  destruct (id =? int64 0)%Z; [apply R_refl|].
  destruct (_ && _); [apply R_refl|].
  destruct (authWithGoogle env _); [apply R_refl|].
  destruct (negb _); [|apply RunUpdate_service_guar].
  destruct (os_OpenFile env _); [apply R_refl|].
  destruct (logClient env); [apply R_refl|].
  pose proof (RunUpdate_service_guar id w) as S.
  destruct (RunUpdate_service service env id w) as [[u|msg|f] w1]; simpl in S;
    try exact S; destruct (File_Close env); exact S.
Qed.

End Run.

(* ================================================================= *)
(** ** The driver: what a run does to the rows *)

Lemma UpdateOffer_auto_increment o db :
  auto_increment (snd (UpdateOffer o db)) = auto_increment db.
Proof.
  rewrite UpdateOffer_eq. destruct (String.eqb (ID o) ""); simpl;
    [reflexivity | apply next_fault_auto_increment].
Qed.

Lemma primary_key_same db db' :
  table db' = table db -> auto_increment db' = auto_increment db ->
  primary_key db -> primary_key db'.
Proof. unfold primary_key. intros -> ->. exact (fun H => H). Qed.

Lemma NoDup_ids_filter (f : Row -> bool) (t : list Row) :
  NoDup (map col.id t) -> NoDup (map col.id (filter f t)).
Proof.
  induction t as [|r t IH]; simpl; [auto|].
  intros N. inversion N as [|x l H1 H2]; subst.
  destruct (f r); simpl; [|apply IH; exact H2].
  constructor; [|apply IH; exact H2].
  intros I. apply H1. apply in_map_iff in I as (r' & E & I).
  apply filter_In in I. apply in_map_iff. exists r'. tauto.
Qed.

Lemma NoDup_snoc {A} (l : list A) (x : A) :
  NoDup l -> ~ In x l -> NoDup (l ++ [x]).
Proof.
  induction l as [|a l IH]; simpl; intros N H.
  - constructor; [intros [] | constructor].
  - inversion N as [|y l' H1 H2]; subst. constructor.
    + intros I. apply in_app_or in I as [I|[E|[]]]; [contradiction|].
      apply H. left. symmetry. exact E.
    + apply IH; [exact H2|]. intros I. apply H. right. exact I.
Qed.

Lemma primary_key_AddOffer o db : primary_key db -> primary_key (snd (AddOffer o db)).
Proof.
  intros [N F]. rewrite AddOffer_eq. destruct (fst (next_fault db)).
  - apply (primary_key_same db); [apply next_fault_table | apply next_fault_auto_increment|].
    split; assumption.
  - cbn [snd]. unfold primary_key. cbn [table auto_increment].
    rewrite next_fault_table, next_fault_auto_increment. split.
    + rewrite map_app. simpl. apply NoDup_snoc; [exact N|].
      intros I. apply in_map_iff in I as (r & E & I).
      rewrite Forall_forall in F. specialize (F r I). lia.
    + apply Forall_app. split.
      * eapply Forall_impl; [|exact F]. simpl. intros r H. lia.
      * constructor; [simpl; lia | constructor].
Qed.

Lemma primary_key_DeleteOffers db : primary_key db -> primary_key (snd (DeleteOffers db)).
Proof.
  intros [N F]. unfold DeleteOffers. rewrite Stmt_Exec_delete.
  destruct (fst (next_fault db)); cbn [snd].
  - apply (primary_key_same db); [apply next_fault_table | apply next_fault_auto_increment|].
    split; assumption.
  - unfold primary_key, set_table. cbn [table auto_increment].
    rewrite next_fault_table, next_fault_auto_increment. split.
    + apply NoDup_ids_filter. exact N.
    + apply Forall_forall. intros r I. apply filter_In in I.
      rewrite Forall_forall in F. apply F, I.
Qed.

Lemma updateOffersData_primary_key service a isMCA w :
  primary_key (DB w) -> primary_key (DB (snd (updateOffersData service a isMCA w))).
Proof.
  apply (updateOffersData_guar (fun w w' => primary_key (DB w) -> primary_key (DB w'))).
  - auto.
  - auto.
  - intros e w0. exact (fun H => H).
  - intros id w0. unfold DB_GetOffer.
    pose proof (GetOffer_db id (DB w0)) as G.
    destruct (GetOffer id (DB w0)) as [r db]. simpl in *. subst db.
    apply primary_key_same; [apply next_fault_table | apply next_fault_auto_increment].
  - intros o w0. unfold DB_UpdateOffer.
    pose proof (UpdateOffer_table o (DB w0)) as T.
    pose proof (UpdateOffer_auto_increment o (DB w0)) as A.
    destruct (UpdateOffer o (DB w0)) as [r db]. simpl in *.
    apply primary_key_same; assumption.
  - intros o w0. unfold DB_AddOffer.
    pose proof (primary_key_AddOffer o (DB w0)) as P.
    destruct (AddOffer o (DB w0)) as [r db]. exact P.
  - intros w0. unfold DB_DeleteOffers.
    pose proof (primary_key_DeleteOffers (DB w0)) as P.
    destruct (DeleteOffers (DB w0)) as [r db]. exact P.
Qed.

(** X11. The primary key survives every run of the driver: if the ids of the
    rows are pairwise distinct and below the AUTO_INCREMENT counter before
    RunUpdate, they are so after it, however the run ends. *)
Theorem RunUpdate_keeps_primary_key
        (service : content.APIService) (env : Env) (id : Z) (logFile : string) (w : World) :
  primary_key (DB w) ->
  primary_key (DB (snd (RunUpdate service env id logFile w))).
Proof.
  apply (RunUpdate_guar (fun w w' => primary_key (DB w) -> primary_key (DB w'))).
  - auto.
  - auto.
  - intros e w0. exact (fun H => H).
  - apply updateOffersData_primary_key.
Qed.

Lemma RunUpdate_keeps_primary_key_witness :
  primary_key fresh /\
  primary_key (DB (snd (RunUpdate (catalog two_pages) workstation 1 "" (mkWorld fresh [])))).
Proof.
  assert (P : primary_key fresh) by (split; constructor).
  split; [exact P|].
  apply (RunUpdate_keeps_primary_key (catalog two_pages) workstation 1 "" (mkWorld fresh [])).
  exact P.
Defined.

(** X12. No run of the driver loses a touched row: a row that is in the
    table with its flag set before RunUpdate is in the table after it,
    whatever the catalog returns and whichever calls fail. *)
Theorem RunUpdate_keeps_touched_rows
        (service : content.APIService) (env : Env) (id : Z) (logFile : string)
        (w : World) (r : Row) :
  In r (table (DB w)) -> col.updated r = true ->
  In r (table (DB (snd (RunUpdate service env id logFile w)))).
Proof.
  revert r. change (touched_kept w (snd (RunUpdate service env id logFile w))).
  apply RunUpdate_guar.
  - exact touched_kept_refl.
  - exact touched_kept_trans.
  - intros e w0 r I _. exact I.
  - exact updateOffersData_keeps_touched.
Qed.

Lemma RunUpdate_keeps_touched_rows_witness :
  In (row_of 1 (offer "C" "c")) (table (populate [offer "C" "c"] fresh)) /\
  In (row_of 1 (offer "C" "c"))
     (table (DB (snd (RunUpdate (catalog two_pages) workstation 1 ""
                                (mkWorld (populate [offer "C" "c"] fresh) []))))).
Proof.
  assert (I : In (row_of 1 (offer "C" "c")) (table (populate [offer "C" "c"] fresh)))
    by (left; reflexivity).
  split; [exact I|].
  apply (RunUpdate_keeps_touched_rows (catalog two_pages) workstation 1 ""
           (mkWorld (populate [offer "C" "c"] fresh) [])); [exact I | reflexivity].
Defined.

(** X13. On a table whose rows are all touched, as is any table only this
    code has written to, a run of the driver removes nothing and reorders
    nothing: the table after the run is the table before it followed by the
    rows the run inserted, all touched. *)
Theorem RunUpdate_only_appends
        (service : content.APIService) (env : Env) (id : Z) (logFile : string) (w : World) :
  Forall (fun r => col.updated r = true) (table (DB w)) ->
  exists added,
    table (DB (snd (RunUpdate service env id logFile w))) = (table (DB w) ++ added)%list /\
    Forall (fun r => col.updated r = true) added.
Proof.
  change (only_appends w (snd (RunUpdate service env id logFile w))).
  apply RunUpdate_guar.
  - exact only_appends_refl.
  - exact only_appends_trans.
  - intros e w0. apply only_appends_same. reflexivity.
  - exact updateOffersData_only_appends.
Qed.

Lemma RunUpdate_only_appends_witness :
  Forall (fun r => col.updated r = true) (table (populate [offer "C" "c"] fresh)) /\
  exists added,
    table (DB (snd (RunUpdate (catalog two_pages) workstation 1 ""
                              (mkWorld (populate [offer "C" "c"] fresh) []))))
    = (table (populate [offer "C" "c"] fresh) ++ added)%list /\
    Forall (fun r => col.updated r = true) added.
Proof.
  assert (F : Forall (fun r => col.updated r = true) (table (populate [offer "C" "c"] fresh)))
    by (repeat constructor).
  split; [exact F|].
  apply (RunUpdate_only_appends (catalog two_pages) workstation 1 ""
           (mkWorld (populate [offer "C" "c"] fresh) [])).
  exact F.
Defined.

(* ================================================================= *)
(** ** Construction of the store: what is created and when it succeeds *)

Lemma createTable_from_spec srv stmts :
  (exists rest, stmts = (snd (createTable_from srv stmts) ++ rest)%list) /\
  (fst (createTable_from srv stmts) = None <->
   forall s, In s stmts -> conn_Exec srv s = None) /\
  (fst (createTable_from srv stmts) = None -> snd (createTable_from srv stmts) = stmts) /\
  (forall e, fst (createTable_from srv stmts) = Some e ->
     exists sent s,
       snd (createTable_from srv stmts) = (sent ++ [s])%list /\
       conn_Exec srv s = Some e /\
       forall s', In s' sent -> conn_Exec srv s' = None).
Proof.
  induction stmts as [|stmt rest (IH1 & IH2 & IH3 & IH4)]; simpl.
  - repeat split; try reflexivity.
    + exists []. reflexivity.
    + intros _ s [].
    + discriminate.
  - destruct (conn_Exec srv stmt) as [e|] eqn:E; simpl.
    + repeat split.
      * exists rest. reflexivity.
      * discriminate.
      * intros H. rewrite (H stmt) in E by (left; reflexivity). discriminate.
      * discriminate.
      * intros e' H. injection H as <-. exists [], stmt. repeat split; auto.
        intros s' [].
    + destruct (createTable_from srv rest) as [r sent]. simpl in *.
      repeat split.
      * destruct IH1 as [tl Htl]. exists tl. rewrite <- Htl. reflexivity.
      * intros H s [<-|I]; [exact E | apply IH2; assumption].
      * intros H. apply IH2. intros s I. apply H. right. exact I.
      * intros H. rewrite (IH3 H). reflexivity.
      * intros e H. destruct (IH4 e H) as (sent' & s & -> & Hs & Hsent).
        exists (stmt :: sent'), s. repeat split; auto.
        intros s' [<-|I]; [exact E | apply Hsent; exact I].
Qed.

(** X14. createTable sends the create statements in order and stops at the
    first that fails: what it sent is a prefix of createTableStatements, it
    returns nil exactly when each of the three statements succeeds (and then
    all three were sent), and an error it returns is the error of the last
    statement sent, all statements before it having succeeded. *)
Theorem createTable_stops_at_first_failure (srv : Server) :
  (exists rest, createTableStatements = (snd (createTable srv) ++ rest)%list) /\
  (fst (createTable srv) = None <->
   forall s, In s createTableStatements -> conn_Exec srv s = None) /\
  (fst (createTable srv) = None -> snd (createTable srv) = createTableStatements) /\
  (forall e, fst (createTable srv) = Some e ->
     exists sent s,
       snd (createTable srv) = (sent ++ [s])%list /\
       conn_Exec srv s = Some e /\
       forall s', In s' sent -> conn_Exec srv s' = None).
Proof. apply createTable_from_spec. Qed.

Lemma createTable_stops_at_first_failure_witness :
  fst (createTable no_database) = None /\
  snd (createTable no_database) = createTableStatements.
Proof.
  assert (H : fst (createTable no_database) = None) by reflexivity.
  split; [exact H|].
  apply (createTable_stops_at_first_failure no_database). exact H.
Defined.

Lemma createTable_sends_no_describe srv : ~ In "DESCRIBE offers" (snd (createTable srv)).
Proof.
  destruct (createTable_from_spec srv createTableStatements) as ([rest E] & _).
  fold (createTable srv) in E. intros I.
  assert (I' : In "DESCRIBE offers" createTableStatements)
    by (rewrite E; apply in_or_app; left; exact I).
  simpl in I'. destruct I' as [H|[H|[H|[]]]]; discriminate.
Qed.

(** X15. When the connection is usable and [USE library] fails with error
    1049, ensureTableExists creates database and table without asking for the
    table first, and its result is that of createTable; when the database is
    there and [DESCRIBE offers] fails with error 1146, it creates them after
    the two checks, with the result of createTable again. *)
Theorem ensureTableExists_creates_what_is_missing (config : MySQLConfig) (srv : Server) :
  sql_Open srv (dataStoreName config "") = None ->
  conn_Ping srv (dataStoreName config "") <> Some ErrBadConn ->
  (forall m, conn_Exec srv "USE library" = Some (MySQLError 1049 m) ->
     ensureTableExists config srv
     = (fst (createTable srv), "USE library" :: snd (createTable srv)) /\
     ~ In "DESCRIBE offers" (snd (ensureTableExists config srv))) /\
  (forall m, conn_Exec srv "USE library" = None ->
     conn_Exec srv "DESCRIBE offers" = Some (MySQLError 1146 m) ->
     ensureTableExists config srv
     = (fst (createTable srv), "USE library" :: "DESCRIBE offers" :: snd (createTable srv))).
Proof.
  intros O P.
  assert (B : isErrBadConn (conn_Ping srv (dataStoreName config "")) = false).
  { destruct (conn_Ping srv _) as [[]|]; try reflexivity. congruence. }
  split.
  - intros m U.
    assert (E : ensureTableExists config srv
                = (fst (createTable srv), "USE library" :: snd (createTable srv))).
    { unfold ensureTableExists. rewrite O, B, U. reflexivity. }
    split; [exact E|]. rewrite E. simpl. intros [H|H]; [discriminate|].
    exact (createTable_sends_no_describe srv H).
  - intros m U D. unfold ensureTableExists. rewrite O, B, U, D. reflexivity.
Qed.

Lemma ensureTableExists_creates_what_is_missing_witness :
  sql_Open no_database (dataStoreName localhost "") = None /\
  ensureTableExists localhost no_database
  = (fst (createTable no_database), "USE library" :: snd (createTable no_database)).
Proof.
  split; [reflexivity|].
  apply (ensureTableExists_creates_what_is_missing localhost no_database)
    with (m := "Unknown database"); [reflexivity | discriminate | reflexivity].
Defined.

(** X16. newMySQLDB returns a store exactly when the check of the table
    returns nil, the connection to database library opens, its ping returns
    no error at all, and each of the five statements can be prepared; the
    handle then holds the five statements. *)
Theorem newMySQLDB_succeeds_iff (config : MySQLConfig) (srv : Server) :
  (isOk (fst (newMySQLDB config srv)) = true <->
   fst (ensureTableExists config srv) = None /\
   sql_Open srv (dataStoreName config "library") = None /\
   conn_Ping srv (dataStoreName config "library") = None /\
   forall st, conn_Prepare srv (query st) = None) /\
  (forall l, fst (newMySQLDB config srv) = Ok l -> l = [list_; get; insert; update; delete]).
Proof.
  unfold newMySQLDB.
  destruct (ensureTableExists config srv) as [[e|] sent]; cbn [fst].
  { split; [split; [discriminate | intros (H & _); discriminate] | discriminate]. }
  destruct (sql_Open srv _) as [e|]; cbn [fst].
  { split; [split; [discriminate | intros (_ & H & _); discriminate] | discriminate]. }
  destruct (conn_Ping srv _) as [e|]; cbn [fst].
  { split; [split; [discriminate | intros (_ & _ & H & _); discriminate] | discriminate]. }
  cbn [prepare_all].
  destruct (conn_Prepare srv (query list_)) as [e|] eqn:P1;
    [split; [split; [discriminate | intros (_ & _ & _ & H); specialize (H list_); congruence]
            | discriminate]|].
  destruct (conn_Prepare srv (query get)) as [e|] eqn:P2;
    [split; [split; [discriminate | intros (_ & _ & _ & H); specialize (H get); congruence]
            | discriminate]|].
  destruct (conn_Prepare srv (query insert)) as [e|] eqn:P3;
    [split; [split; [discriminate | intros (_ & _ & _ & H); specialize (H insert); congruence]
            | discriminate]|].
  destruct (conn_Prepare srv (query update)) as [e|] eqn:P4;
    [split; [split; [discriminate | intros (_ & _ & _ & H); specialize (H update); congruence]
            | discriminate]|].
  destruct (conn_Prepare srv (query delete)) as [e|] eqn:P5;
    [split; [split; [discriminate | intros (_ & _ & _ & H); specialize (H delete); congruence]
            | discriminate]|].
  split.
  - split; [|reflexivity]. intros _. repeat split. intros []; assumption.
  - intros l H. injection H as <-. reflexivity.
Qed.

Lemma newMySQLDB_succeeds_iff_witness :
  fst (ensureTableExists localhost no_database) = None /\
  isOk (fst (newMySQLDB localhost no_database)) = true.
Proof.
  split; [reflexivity|].
  apply (proj1 (newMySQLDB_succeeds_iff localhost no_database)).
  repeat split; intros []; reflexivity.
Defined.

(** X17. In the data source name, a password without a user name is left
    out, and a unix socket takes the place of host and port; the name always
    ends with a slash and the database name. *)
Theorem dataStoreName_uses (c : MySQLConfig) (databaseName : string) :
  (Username c = "" ->
   dataStoreName c databaseName
   = dataStoreName (mkConfig "" "" (Host c) (Port c) (UnixSocket c)) databaseName) /\
  (UnixSocket c <> "" ->
   dataStoreName c databaseName
   = dataStoreName (mkConfig (Username c) (Password c) "" 0 (UnixSocket c)) databaseName) /\
  exists address, dataStoreName c databaseName = address ++ "/" ++ databaseName.
Proof.
  unfold dataStoreName. cbn [Username Password Host Port UnixSocket].
  split; [|split].
  - intros ->. reflexivity.
  - intros H. apply String.eqb_neq in H. rewrite H. reflexivity.
  - assert (A : forall a b c : string, (a ++ b) ++ c = a ++ b ++ c).
    { intros a b c0. induction a as [|x a IH]; simpl; [reflexivity | rewrite IH; reflexivity]. }
    set (cred := if negb (String.eqb (Username c) "") then _ else _).
    destruct (negb (String.eqb (UnixSocket c) "")).
    + exists (cred ++ "unix(" ++ UnixSocket c ++ ")").
      rewrite !A. reflexivity.
    + exists (cred ++ "tcp([" ++ Host c ++ "]:" ++ fmt_d (Port c) ++ ")").
      rewrite !A. reflexivity.
Qed.

Lemma dataStoreName_uses_witness :
  Username (mkConfig "" "secret" "db.example" 3306 "") = "" /\
  dataStoreName (mkConfig "" "secret" "db.example" 3306 "") "library"
  = "tcp([db.example]:3306)/library".
Proof.
  split; [reflexivity|].
  rewrite (proj1 (dataStoreName_uses (mkConfig "" "secret" "db.example" 3306 "") "library")
                 eq_refl).
  reflexivity.
Defined.

(* ================================================================= *)
(** ** The pipeline: how a pass can end *)

Section Kinds.

Variable allow : Kind -> bool.
Hypothesis allow_return : allow Returned = true.
Variable good : content.Product.t -> Prop.
Hypothesis step : forall p w, good p -> allow (kind (fst (updateProduct p w))) = true.

Lemma range_products_kind ps w :
  Forall good ps -> allow (kind (fst (range_products ps w))) = true.
Proof.
  revert w. induction ps as [|p ps IH]; intros w G; simpl; [exact allow_return|].
  inversion G as [|? ? Gp Gps]; subst.
  pose proof (step p w Gp) as S.
  destruct (updateProduct p w) as [[[e|]| |] w1]; simpl in *; try exact S.
  apply IH. exact Gps.
Qed.

Lemma updateProducts_kind res w :
  Forall good (content.ProductsListResponse.Resources res) ->
  allow (kind (fst (updateProducts res w))) = true.
Proof.
  intros G. unfold updateProducts.
  pose proof (range_products_kind _ w G) as S.
  destruct (range_products _ w) as [[[e|]| |] w1]; simpl in *; try exact S.
  destruct (DB_DeleteOffers w1). exact allow_return.
Qed.

Lemma Pages_products_kind id c w :
  feed_all good c ->
  allow (kind (fst (Pages (ApiProductsList id) updateProducts c w))) = true.
Proof.
  revert w. induction c as [err|x|x rest IH]; intros w G; simpl in *.
  - exact allow_return.
  - apply updateProducts_kind. exact G.
  - destruct G as [Gx Grest].
    pose proof (updateProducts_kind x (record (ApiProductsList id true) w) Gx) as S.
    destruct (updateProducts x _) as [[[e|]| |] w1]; simpl in *; try exact S.
    apply IH. exact Grest.
Qed.

Variable service : content.APIService.
Hypothesis all_good : catalog_all good service.

Lemma updateProductsList_kind a w :
  allow (kind (fst (updateProductsList service a w))) = true.
Proof.
  unfold updateProductsList.
  pose proof (Pages_products_kind (content.Account.Id a) _ w
                (all_good (content.Account.Id a))) as S.
  destruct (Pages _ _ _ w) as [[r| |] w1]; simpl in *; try exact S; exact allow_return.
Qed.

Lemma updateAccountTables_kind res w :
  allow (kind (fst (updateAccountTables service res w))) = true.
Proof.
  unfold updateAccountTables.
  generalize (content.AccountsListResponse.Resources res) as l. intros l.
  revert w. induction l as [|a l IH]; intros w; simpl; [exact allow_return|].
  pose proof (updateProductsList_kind a w) as S.
  destruct (updateProductsList service a w) as [[r| |] w1]; simpl in *; try exact S.
  apply IH.
Qed.

Lemma Pages_accounts_kind id c w :
  allow (kind (fst (Pages (ApiAccountsList id) (updateAccountTables service) c w))) = true.
Proof.
  revert w. induction c as [err|x|x rest IH]; intros w; simpl.
  - exact allow_return.
  - apply updateAccountTables_kind.
  - pose proof (updateAccountTables_kind x (record (ApiAccountsList id true) w)) as S.
    destruct (updateAccountTables service x _) as [[[e|]| |] w1]; simpl in *; try exact S.
    apply IH.
Qed.

Lemma updateOffersData_kind a isMCA w :
  allow (kind (fst (updateOffersData service a isMCA w))) = true.
Proof.
  unfold updateOffersData. destruct isMCA; simpl.
  - pose proof (Pages_accounts_kind (content.Account.Id a)
                  (content.Accounts_List service (content.Account.Id a)) w) as S.
    destruct (Pages _ _ _ w) as [[r| |] w1]; simpl in *; try exact S; exact allow_return.
  - pose proof (updateProductsList_kind a w) as S.
    destruct (updateProductsList service a w) as [[r| |] w1]; simpl in *; try exact S;
      exact allow_return.
Qed.

End Kinds.

Lemma updateProduct_never_exits p w : kind (fst (updateProduct p w)) <> Exit.
Proof.
  unfold updateProduct. destruct (content.Product.Price p); [|discriminate].
  destruct (DB_GetOffer _ w) as [got w1].
  destruct (DB_AddOffer _ _) as [[z|e] w3]; discriminate.
Qed.

Lemma updateProduct_priced_returns p w :
  has_price p -> kind (fst (updateProduct p w)) = Returned.
Proof.
  unfold has_price, updateProduct. destruct (content.Product.Price p); [|congruence].
  intros _. destruct (DB_GetOffer _ w) as [got w1].
  destruct (DB_AddOffer _ _) as [[z|e] w3]; reflexivity.
Qed.

(** X18. updateOffersData reports no failure to its caller and never ends the
    process: whatever the Content API answers and whichever store call
    fails, it returns normally, the one exception being the panic on a
    product without a price.  When every listed product is priced it
    returns. *)
Theorem updateOffersData_reports_no_failure
        (service : content.APIService) (a : content.Account.t) (isMCA : bool) (w : World) :
  kind (fst (updateOffersData service a isMCA w)) <> Exit /\
  (catalog_priced service -> fst (updateOffersData service a isMCA w) = Ret tt).
Proof.
  split.
  - assert (S : forall p w0, True -> unless_exit (kind (fst (updateProduct p w0))) = true).
    { intros p w0 _. pose proof (updateProduct_never_exits p w0) as N.
      destruct (kind (fst (updateProduct p w0))); [reflexivity | reflexivity | congruence]. }
    assert (G : catalog_all (fun _ => True) service).
    { intros id. induction (content.Products_List service id) as [e|x|x rest IH]; simpl;
        [exact I | | split; [|exact IH]]; apply Forall_forall; intros; exact I. }
    pose proof (updateOffersData_kind unless_exit eq_refl (fun _ => True) S service G
                  a isMCA w) as K.
    intros E. rewrite E in K. discriminate.
  - intros P.
    assert (S : forall p w0, has_price p -> only_return (kind (fst (updateProduct p w0))) = true).
    { intros p w0 H. rewrite (updateProduct_priced_returns p w0 H). reflexivity. }
    pose proof (updateOffersData_kind only_return eq_refl has_price S service P
                  a isMCA w) as K.
    destruct (fst (updateOffersData service a isMCA w)) as [[]| |]; simpl in K;
      [reflexivity | discriminate | discriminate].
Qed.

Lemma updateOffersData_reports_no_failure_witness :
  catalog_priced (catalog two_pages) /\
  fst (updateOffersData (catalog two_pages) merchant false
         (mkWorld (set_faults [None; Some ErrBadConn] fresh) []))
  = Ret tt.
Proof.
  assert (P : catalog_priced (catalog two_pages)).
  { intros id. simpl. repeat constructor; discriminate. }
  split; [exact P|].
  apply (updateOffersData_reports_no_failure (catalog two_pages) merchant false). exact P.
Defined.

(* ================================================================= *)
(** ** The pipeline: pages, panics and sub-accounts *)

Lemma sweeps_snoc l e :
  sweeps (l ++ [e]) = (sweeps l + match e with CallDeleteOffers _ => 1 | _ => 0 end)%nat.
Proof.
  unfold sweeps. rewrite filter_app, length_app. destruct e; reflexivity.
Qed.

Lemma range_products_no_sweep ps w :
  sweeps (calls (snd (range_products ps w))) = sweeps (calls w).
Proof.
  apply (range_products_guar (fun w w' => sweeps (calls w') = sweeps (calls w))).
  - reflexivity.
  - intros a b c H1 H2. congruence.
  - intros id w0. unfold DB_GetOffer. destruct (GetOffer id (DB w0)). simpl.
    rewrite sweeps_snoc. simpl. lia.
  - intros o w0. unfold DB_UpdateOffer. destruct (UpdateOffer o (DB w0)). simpl.
    rewrite sweeps_snoc. simpl. lia.
  - intros o w0. unfold DB_AddOffer. destruct (AddOffer o (DB w0)). simpl.
    rewrite sweeps_snoc. simpl. lia.
Qed.

(** X19. A product without a price makes updateProducts panic when its turn
    comes: the products before it on the page have been upserted, the
    products after it are not looked at, and the page is not swept. *)
Theorem unpriced_product_panics
        (pre rest : list content.Product.t) (p : content.Product.t) (w w0 : World) :
  range_products pre w = (Ret None, w0) ->
  content.Product.Price p = None ->
  updateProducts (page (pre ++ p :: rest)) w
  = (Panicked "invalid memory address or nil pointer dereference", w0) /\
  sweeps (calls w0) = sweeps (calls w).
Proof.
  intros H P. split.
  - unfold updateProducts, page. simpl. rewrite range_products_app, H. simpl.
    unfold updateProduct. rewrite P. reflexivity.
  - pose proof (range_products_no_sweep pre w) as S. rewrite H in S. exact S.
Qed.

Lemma unpriced_product_panics_witness :
  content.Product.Price (content.Product.mk "U" "unpriced" None "" "" "") = None /\
  fst (updateProducts
         (page [product "X1" "first"; content.Product.mk "U" "unpriced" None "" "" "";
                product "X2" "second"])
         (mkWorld fresh []))
  = Panicked "invalid memory address or nil pointer dereference".
Proof.
  split; [reflexivity|].
  exact (f_equal fst
           (proj1 (unpriced_product_panics [product "X1" "first"] [product "X2" "second"]
                     (content.Product.mk "U" "unpriced" None "" "" "")
                     (mkWorld fresh [])
                     (snd (range_products [product "X1" "first"] (mkWorld fresh [])))
                     eq_refl eq_refl))).
Defined.

Lemma range_products_error ps w err w' :
  range_products ps w = (Ret (Some err), w') ->
  exists l id, calls w' = (l ++ [CallAddOffer id false])%list.
Proof.
  revert w. induction ps as [|p ps IH]; intros w; simpl; [discriminate|].
  destruct (updateProduct p w) as [[[e|]| |] w1] eqn:E; try discriminate.
  - intros H. injection H as <- <-.
    destruct (updateProduct_error p w e w1 E) as [l Hl]. eauto.
  - apply IH.
Qed.

(** X20. An error returned by updateProducts has one of two causes: the
    insert of a record failed, which is then the last call made and the page
    was not swept; or the sweep at the end of the page failed. *)
Theorem updateProducts_error_cause
        (res : content.ProductsListResponse.t) (w w' : World) (err : error) :
  updateProducts res w = (Ret (Some err), w') ->
  (exists l id, calls w' = (l ++ [CallAddOffer id false])%list /\
                sweeps (calls w') = sweeps (calls w)) \/
  (exists l, calls w' = (l ++ [CallDeleteOffers false])%list).
Proof.
  unfold updateProducts.
  pose proof (range_products_no_sweep (content.ProductsListResponse.Resources res) w) as S.
  destruct (range_products _ w) as [[[e|]| |] w1] eqn:E; simpl in S; try discriminate.
  - intros H. injection H as <- <-. left.
    destruct (range_products_error _ _ _ _ E) as (l & id & Hl). eauto.
  - unfold DB_DeleteOffers. destruct (DeleteOffers (DB w1)) as [[e|] db]; [|discriminate].
    intros H. injection H as <- <-. right. simpl. eauto.
Qed.

Lemma updateProducts_error_cause_witness :
  fst (updateProducts (page [product "X1" "first"; product "X2" "second"])
         (mkWorld (set_faults [None; Some ErrBadConn] fresh) []))
  = Ret (Some (Errorf_v "mysql: could not execute statement: %v" ErrBadConn)) /\
  ((exists l id,
      calls (snd (updateProducts (page [product "X1" "first"; product "X2" "second"])
                    (mkWorld (set_faults [None; Some ErrBadConn] fresh) [])))
      = (l ++ [CallAddOffer id false])%list /\
      sweeps (calls (snd (updateProducts (page [product "X1" "first"; product "X2" "second"])
                            (mkWorld (set_faults [None; Some ErrBadConn] fresh) []))))
      = sweeps (calls (mkWorld (set_faults [None; Some ErrBadConn] fresh) []))) \/
   (exists l,
      calls (snd (updateProducts (page [product "X1" "first"; product "X2" "second"])
                    (mkWorld (set_faults [None; Some ErrBadConn] fresh) [])))
      = (l ++ [CallDeleteOffers false])%list)).
Proof.
  split; [reflexivity|].
  apply (updateProducts_error_cause (page [product "X1" "first"; product "X2" "second"])
           (mkWorld (set_faults [None; Some ErrBadConn] fresh) []) _
           (Errorf_v "mysql: could not execute statement: %v" ErrBadConn)).
  reflexivity.
Defined.

(** X22. For a merchant that is not an aggregator, and when no call fails,
    updateProductsList sweeps once for every page of the product list: n
    pages, n runs of DeleteOffers. *)
Theorem updateProductsList_sweeps_every_page
        (service : content.APIService) (a : content.Account.t) (w : World) :
  faults (DB w) = [] ->
  healthy (content.Products_List service (content.Account.Id a)) ->
  fst (updateProductsList service a w) = Ret None /\
  sweeps (calls (snd (updateProductsList service a w)))
  = (sweeps (calls w) + pages (content.Products_List service (content.Account.Id a)))%nat.
Proof.
  intros F H. unfold updateProductsList.
  destruct (sweeps_once_per_page (content.Account.Id a) _ w F H) as (w' & E & _ & S).
  rewrite E. simpl. auto.
Qed.

Lemma updateProductsList_sweeps_every_page_witness :
  faults (DB (mkWorld fresh [])) = [] /\
  healthy two_pages /\
  sweeps (calls (snd (updateProductsList (catalog two_pages) merchant (mkWorld fresh []))))
  = 2%nat.
Proof.
  assert (H : healthy two_pages).
  { simpl. unfold priced. simpl. split; repeat constructor; discriminate. }
  split; [reflexivity|]. split; [exact H|].
  apply (updateProductsList_sweeps_every_page (catalog two_pages) merchant
           (mkWorld fresh []) eq_refl H).
Defined.

Lemma log_extends_Get id w : log_extends w (snd (DB_GetOffer id w)).
Proof. unfold DB_GetOffer. destruct (GetOffer id (DB w)). eexists. reflexivity. Qed.

Lemma log_extends_Update o w : log_extends w (snd (DB_UpdateOffer o w)).
Proof. unfold DB_UpdateOffer. destruct (UpdateOffer o (DB w)). eexists. reflexivity. Qed.

Lemma log_extends_Add o w : log_extends w (snd (DB_AddOffer o w)).
Proof. unfold DB_AddOffer. destruct (AddOffer o (DB w)). eexists. reflexivity. Qed.

Lemma log_extends_Delete w : log_extends w (snd (DB_DeleteOffers w)).
Proof. unfold DB_DeleteOffers. destruct (DeleteOffers (DB w)). eexists. reflexivity. Qed.

Lemma updateProducts_log_extends res w : log_extends w (snd (updateProducts res w)).
Proof.
  apply updateProducts_guar; try exact log_extends_trans;
    auto using log_extends_refl, log_extends_Get, log_extends_Update,
               log_extends_Add, log_extends_Delete.
Qed.

(** The first thing updateProductsList does is to request the product list
    of the account. *)
Lemma updateProductsList_requests service a w :
  exists ok more,
    calls (snd (updateProductsList service a w))
    = (calls w ++ ApiProductsList (content.Account.Id a) ok :: more)%list.
Proof.
  unfold updateProductsList.
  set (id := content.Account.Id a).
  assert (P : exists ok more,
             calls (snd (Pages (ApiProductsList id) updateProducts
                               (content.Products_List service id) w))
             = (calls w ++ ApiProductsList id ok :: more)%list).
  { destruct (content.Products_List service id) as [err|x|x rest]; simpl.
    - exists false, []. reflexivity.
    - destruct (updateProducts_log_extends x (record (ApiProductsList id true) w)) as [evs E].
      exists true, evs. rewrite E. simpl. rewrite <- app_assoc. reflexivity.
    - assert (L : log_extends (record (ApiProductsList id true) w)
                    (snd (match updateProducts x (record (ApiProductsList id true) w) with
                          | (Ret None, w1) => Pages (ApiProductsList id) updateProducts rest w1
                          | stop => stop
                          end))).
      { pose proof (updateProducts_log_extends x (record (ApiProductsList id true) w)) as U.
        destruct (updateProducts x _) as [[[e|]| |] w1]; simpl in *; try exact U.
        eapply log_extends_trans; [exact U|].
        apply Pages_guar; try exact log_extends_trans;
          auto using log_extends_refl, log_extends_record, updateProducts_log_extends. }
      destruct L as [evs E]. exists true, evs. rewrite E. simpl.
      rewrite <- app_assoc. reflexivity. }
  destruct P as (ok & more & E). exists ok, more.
  destruct (Pages _ _ _ w) as [[r| |] w1]; exact E.
Qed.

Lemma updateProductsList_log_extends service a w :
  log_extends w (snd (updateProductsList service a w)).
Proof.
  destruct (updateProductsList_requests service a w) as (ok & more & E).
  eexists. exact E.
Qed.

Lemma range_accounts_returns_nil service l w r :
  fst (range_accounts service l w) = Ret r -> r = None.
Proof.
  revert w. induction l as [|c l IH]; intros w; simpl.
  - intros H. injection H as <-. reflexivity.
  - destruct (updateProductsList service c w) as [[rc| |] w1]; try discriminate.
    apply IH.
Qed.

Lemma range_accounts_log_extends service l w :
  log_extends w (snd (range_accounts service l w)).
Proof.
  revert w. induction l as [|c l IH]; intros w; simpl; [apply log_extends_refl|].
  pose proof (updateProductsList_log_extends service c w) as S.
  destruct (updateProductsList service c w) as [[rc| |] w1]; simpl in S; try exact S.
  eapply log_extends_trans; [exact S | apply IH].
Qed.

(** X21. For an aggregator, one sub-account does not stop the others: when
    updateAccountTables returns, it returns nil, and the product list of
    every account of the page has been requested, whatever happened to the
    accounts before it. *)
Theorem updateAccountTables_visits_every_account
        (service : content.APIService) (res : content.AccountsListResponse.t)
        (w : World) (r : option error) (a : content.Account.t) :
  fst (updateAccountTables service res w) = Ret r ->
  In a (content.AccountsListResponse.Resources res) ->
  r = None /\
  exists ok,
    In (ApiProductsList (content.Account.Id a) ok)
       (calls (snd (updateAccountTables service res w))).
Proof.
  unfold updateAccountTables. intros H I.
  split; [exact (range_accounts_returns_nil _ _ _ _ H)|].
  revert w H. induction (content.AccountsListResponse.Resources res) as [|b l IH];
    intros w H; [destruct I|].
  simpl in H |- *.
  destruct (updateProductsList_requests service b w) as (ok & more & E).
  destruct (updateProductsList service b w) as [[rb| |] w1]; simpl in E; try discriminate.
  destruct I as [<-|I].
  - exists ok.
    destruct (range_accounts_log_extends service l w1) as [evs Hevs].
    rewrite Hevs, E.
    apply in_or_app. left. apply in_or_app. right. left. reflexivity.
  - exact (IH I w1 H).
Qed.

Lemma updateAccountTables_visits_every_account_witness :
  fst (updateAccountTables (aggregator two_pages)
         (content.AccountsListResponse.mk [content.Account.mk 1; content.Account.mk 2])
         (mkWorld (set_faults [None; Some ErrBadConn] fresh) []))
  = Ret None /\
  exists ok,
    In (ApiProductsList 2 ok)
       (calls (snd (updateAccountTables (aggregator two_pages)
                      (content.AccountsListResponse.mk
                         [content.Account.mk 1; content.Account.mk 2])
                      (mkWorld (set_faults [None; Some ErrBadConn] fresh) [])))).
Proof.
  split; [reflexivity|].
  apply (updateAccountTables_visits_every_account (aggregator two_pages)
           (content.AccountsListResponse.mk [content.Account.mk 1; content.Account.mk 2])
           (mkWorld (set_faults [None; Some ErrBadConn] fresh) []) None
           (content.Account.mk 2));
    [reflexivity | right; left; reflexivity].
Defined.

(* ================================================================= *)
(** ** The driver: resolution of the account *)

(** X23. The account is treated as an aggregator exactly when the first
    identifier of the identity that mentions the id mentions it as an
    aggregator and not as a merchant; an id no identifier mentions is a
    plain merchant. *)
Theorem CheckAccounts_first_mention (id : Z) (ids : list content.AccountIdentifier.t) :
  CheckAccounts id ids = true <->
  exists pre i post,
    ids = (pre ++ i :: post)%list /\
    (forall j, In j pre -> ~ mentions id j) /\
    id <> int64 (content.AccountIdentifier.MerchantId i) /\
    id = int64 (content.AccountIdentifier.AggregatorId i).
Proof.
  induction ids as [|j ids IH]; simpl.
  - split; [discriminate|]. intros (pre & i & post & E & _). destruct pre; discriminate.
  - destruct (Z.eqb_spec id (int64 (content.AccountIdentifier.MerchantId j))) as [M|M].
    + split; [discriminate|]. intros (pre & i & post & E & Hpre & Hm & Ha).
      destruct pre as [|k pre]; simpl in E; injection E as E1 E2.
      * rewrite E1 in M. contradiction.
      * rewrite E1 in M. exfalso. apply (Hpre k); [left; reflexivity | left; exact M].
    + destruct (Z.eqb_spec id (int64 (content.AccountIdentifier.AggregatorId j))) as [A|A].
      * split; [|reflexivity]. intros _. exists [], j, ids.
        split; [reflexivity|]. split; [intros k []|]. split; assumption.
      * rewrite IH. split.
        -- intros (pre & i & post & E & Hpre & Hm & Ha).
           exists (j :: pre), i, post. rewrite E.
           split; [reflexivity|]. split; [|split; assumption].
           intros k [<-|I]; [intros [H|H]; contradiction | apply Hpre; exact I].
        -- intros (pre & i & post & E & Hpre & Hm & Ha).
           destruct pre as [|k pre]; simpl in E; injection E as E1 E2.
           ++ rewrite E1 in A. contradiction.
           ++ exists pre, i, post.
              split; [exact E2|]. split; [|split; assumption].
              intros k' I. apply Hpre. right. exact I.
Qed.

Lemma CheckAccounts_first_mention_witness :
  CheckAccounts 7 [content.AccountIdentifier.mk 0 3; content.AccountIdentifier.mk 7 0] = true /\
  exists pre i post,
    [content.AccountIdentifier.mk 0 3; content.AccountIdentifier.mk 7 0]
    = (pre ++ i :: post)%list /\
    (forall j, In j pre -> ~ mentions 7 j) /\
    7%Z <> int64 (content.AccountIdentifier.MerchantId i) /\
    7%Z = int64 (content.AccountIdentifier.AggregatorId i).
Proof.
  split; [reflexivity|].
  apply (CheckAccounts_first_mention 7
           [content.AccountIdentifier.mk 0 3; content.AccountIdentifier.mk 7 0]).
  reflexivity.
Defined.

(** X24. An error of the Content API while the account is resolved ends the
    process, with the store as it was: retrieve makes the request, logs the
    failure and exits, with a fixed message for an error the API reported
    and with the error itself otherwise. *)
Theorem retrieve_exits_on_api_error
        (service : content.APIService) (id : Z) (w : World) (err : error) :
  let fatal := match err with
               | APIError _ _ => Fatal_msg "Error from API, halting demos"
               | _ => Fatal_err err
               end in
  (content.Accounts_Authinfo service = Err err ->
   retrieve service id w = (Exited fatal, record (ApiAuthinfo false) w)) /\
  (forall authinfo,
     id <> 0%Z ->
     content.Accounts_Authinfo service = Ok authinfo ->
     content.AccountsAuthInfoResponse.AccountIdentifiers authinfo <> [] ->
     content.Accounts_Get service (uint64 id) (uint64 id) = Err err ->
     retrieve service id w
     = (Exited fatal, record (ApiAccountsGet (uint64 id) false) (record (ApiAuthinfo true) w)) /\
     DB (snd (retrieve service id w)) = DB w).
Proof.
  cbv zeta. split.
  - intros H. unfold retrieve. rewrite H. unfold dumpAPIErrorAndStop.
    destruct err; reflexivity.
  - intros authinfo Hid H N G.
    assert (E : retrieve service id w
                = (Exited (match err with
                           | APIError _ _ => Fatal_msg "Error from API, halting demos"
                           | _ => Fatal_err err
                           end),
                   record (ApiAccountsGet (uint64 id) false) (record (ApiAuthinfo true) w))).
    { unfold retrieve. rewrite H.
      destruct (content.AccountsAuthInfoResponse.AccountIdentifiers authinfo) as [|i ids];
        [contradiction|].
      apply Z.eqb_neq in Hid. rewrite Hid, G. unfold dumpAPIErrorAndStop.
      destruct err; reflexivity. }
    split; [exact E|]. rewrite E. reflexivity.
Qed.

Lemma retrieve_exits_on_api_error_witness :
  content.Accounts_Authinfo unauthorized = Err (APIError 401 "Unauthorized") /\
  retrieve unauthorized 1 (mkWorld fresh [])
  = (Exited (Fatal_msg "Error from API, halting demos"), mkWorld fresh [ApiAuthinfo false]).
Proof.
  split; [reflexivity|].
  exact (proj1 (retrieve_exits_on_api_error unauthorized 1 (mkWorld fresh [])
                  (APIError 401 "Unauthorized")) eq_refl).
Defined.

(** X25. Called with id 0, retrieve takes the AggregatorId of the first
    identifier of the identity as the account, whatever its MerchantId: for
    a first identifier that is a plain merchant the account it asks for is
    account 0. *)
Theorem retrieve_default_is_first_aggregator
        (service : content.APIService) (w : World)
        (authinfo : content.AccountsAuthInfoResponse.t)
        (first : content.AccountIdentifier.t) (others : list content.AccountIdentifier.t) :
  content.Accounts_Authinfo service = Ok authinfo ->
  content.AccountsAuthInfoResponse.AccountIdentifiers authinfo = first :: others ->
  exists ok more,
    calls (snd (retrieve service 0 w))
    = (calls w ++
       [ApiAuthinfo true;
        ApiAccountsGet (uint64 (int64 (content.AccountIdentifier.AggregatorId first))) ok]
       ++ more)%list.
Proof.
  intros H I. unfold retrieve. rewrite H, I. cbn [Z.eqb].
  destruct (content.Accounts_Get service _ _) as [account|err].
  - exists true.
    match goal with
    | |- context [updateOffersData service account ?m ?w2] =>
        destruct (updateOffersData_log_extends service account m w2) as [evs E]
    end.
    exists evs. rewrite E. simpl. rewrite <- !app_assoc. reflexivity.
  - exists false, []. unfold dumpAPIErrorAndStop.
    destruct err; simpl; rewrite <- app_assoc; reflexivity.
Qed.

Lemma retrieve_default_is_first_aggregator_witness :
  content.Accounts_Authinfo (catalog two_pages)
  = Ok (content.AccountsAuthInfoResponse.mk [content.AccountIdentifier.mk 0 1]) /\
  exists ok more,
    calls (snd (retrieve (catalog two_pages) 0 (mkWorld fresh [])))
    = ([] ++ [ApiAuthinfo true; ApiAccountsGet 0 ok] ++ more)%list.
Proof.
  split; [reflexivity|].
  apply (retrieve_default_is_first_aggregator (catalog two_pages) (mkWorld fresh [])
           (content.AccountsAuthInfoResponse.mk [content.AccountIdentifier.mk 0 1])
           (content.AccountIdentifier.mk 0 1) []); reflexivity.
Defined.

Lemma retrieve_requests service id w :
  exists ok more,
    calls (snd (retrieve service id w)) = (calls w ++ ApiAuthinfo ok :: more)%list.
Proof.
  assert (L : forall ok, log_extends (record (ApiAuthinfo ok) w) (snd (retrieve service id w)) ->
              exists ok more,
                calls (snd (retrieve service id w)) = (calls w ++ ApiAuthinfo ok :: more)%list).
  { intros ok [evs E]. exists ok, evs. rewrite E. simpl. rewrite <- app_assoc. reflexivity. }
  unfold retrieve in *.
  destruct (content.Accounts_Authinfo service) as [authinfo|err]; simpl in *.
  - apply (L true).
    destruct (content.AccountsAuthInfoResponse.AccountIdentifiers authinfo) as [|i ids];
      [apply log_extends_refl|].
    destruct (content.Accounts_Get service _ _) as [account|err].
    + eapply log_extends_trans; [apply log_extends_record|].
      apply updateOffersData_log_extends.
    + unfold dumpAPIErrorAndStop. destruct err; simpl; apply log_extends_record.
  - apply (L false). unfold dumpAPIErrorAndStop. destruct err; simpl; apply log_extends_refl.
Qed.

(** X26. RunUpdate touches nothing before it knows the identity: either it
    ends the process with the store and the log as they were, or the first
    call it makes is the request for the accounts of the identity. *)
Theorem RunUpdate_begins_with_authinfo
        (service : content.APIService) (env : Env) (id : Z) (logFile : string) (w : World) :
  (exists f, RunUpdate service env id logFile w = (Exited f, w)) \/
  (exists ok more,
     calls (snd (RunUpdate service env id logFile w))
     = (calls w ++ ApiAuthinfo ok :: more)%list).
Proof.
  assert (S : (exists f, RunUpdate_service service env id w = (Exited f, w)) \/
              (exists ok more,
                 calls (snd (RunUpdate_service service env id w))
                 = (calls w ++ ApiAuthinfo ok :: more)%list)).
  { unfold RunUpdate_service.
    destruct (content_New env); [left; eauto|].
    destruct (negb _); [|right; apply retrieve_requests].
    destruct (url_Parse env _) as [[|]|]; [right; apply retrieve_requests | left; eauto..]. }
  unfold RunUpdate.
  destruct (user_Current env); [|left; eauto].
  destruct (id =? int64 0)%Z; [left; eauto|].
  destruct (_ && _); [left; eauto|].
  destruct (authWithGoogle env _); [left; eauto|].
  destruct (negb _); [|exact S].
  destruct (os_OpenFile env _); [left; eauto|].
  destruct (logClient env); [left; eauto|].
  destruct S as [[f E]|(ok & more & E)].
  - left. rewrite E. eauto.
  - right. exists ok, more.
    destruct (RunUpdate_service service env id w) as [[u|msg|f] w1]; simpl in *;
      try exact E; destruct (File_Close env); exact E.
Qed.

(* ================================================================= *)
(** ** The handlers of the site *)

Example ParseInt_examples :
  map app.ParseInt ["12"; "-5"; "+7"; "007"; "-9223372036854775808"]
  = [Ok 12%Z; Ok (-5)%Z; Ok 7%Z; Ok 7%Z; Ok (-9223372036854775808)%Z] /\
  map (fun s => isOk (app.ParseInt s))
      [""; "+"; "1x"; " 1"; "1_000"; "9223372036854775808"; "0x10"]
  = [false; false; false; false; false; false; false].
Proof. split; vm_compute; reflexivity. Qed.

Lemma GetOffer_miss id db :
  fst (next_fault db) = None -> ~ stored db id ->
  fst (GetOffer id db) = Err (Errorf_s "mysql: could not find offer with id %s" id).
Proof.
  intros F N. rewrite (GetOffer_eq id db F). cbn [fst].
  destruct (filter _ _) as [|r l] eqn:E; [reflexivity|].
  exfalso. apply N. exists r.
  apply (proj1 (filter_In (fun r => collate db (col.offerId r) id) r (table db))).
  unfold Row in *. rewrite E. left. reflexivity.
Qed.

Lemma RunUpdate_zero service env logFile w :
  exists f, RunUpdate service env 0 logFile w = (Exited f, w).
Proof. unfold RunUpdate. destruct (user_Current env); eexists; reflexivity. Qed.

(** X27. A search that finds nothing is not an error for the visitor: when
    SearchOffers fails, for lack of a match or for any other reason,
    searchHandler renders the list template with no offers, exactly as for an
    empty list; only a request without the parameter q is answered with an
    error, of code 500, without a call to the store. *)
Theorem searchHandler_renders_failed_search
        (lower : string -> string) (Execute : app.Template -> app.Data -> option app.appError)
        (r : app.Request) (w : World) :
  (app.Query_q r = None ->
   app.searchHandler lower Execute r w
   = (Ret (Some (app.mkAppError (New "bad offer query")
                                (app.Sprintf "could not find offers") 500)), w)) /\
  (forall q more e,
     app.Query_q r = Some (q :: more) ->
     fst (SearchOffers lower q (DB w)) = Err e ->
     fst (app.searchHandler lower Execute r w) = Ret (Execute app.listTmpl (app.Offers []))) /\
  (forall q more hits,
     app.Query_q r = Some (q :: more) ->
     fst (SearchOffers lower q (DB w)) = Ok hits ->
     fst (app.searchHandler lower Execute r w) = Ret (Execute app.listTmpl (app.Offers hits))).
Proof.
  unfold app.searchHandler. split; [|split].
  - intros ->. reflexivity.
  - intros q more e -> H. destruct (SearchOffers lower q (DB w)) as [res db].
    simpl in H. subst res. reflexivity.
  - intros q more hits -> H. destruct (SearchOffers lower q (DB w)) as [res db].
    simpl in H. subst res. reflexivity.
Qed.

Lemma searchHandler_renders_failed_search_witness :
  fst (SearchOffers asciiOnly "teapot" (populate [offer "K" "Red Kettle"] fresh))
  = Err (Errorf_s "mysql: could not find offer with description %s" "teapot") /\
  fst (app.searchHandler asciiOnly renders (app.mkRequest (Some ["teapot"]) "")
         (mkWorld (populate [offer "K" "Red Kettle"] fresh) []))
  = Ret (renders app.listTmpl (app.Offers [])).
Proof.
  split; [reflexivity|].
  apply (proj1 (proj2 (searchHandler_renders_failed_search asciiOnly renders
                         (app.mkRequest (Some ["teapot"]) "")
                         (mkWorld (populate [offer "K" "Red Kettle"] fresh) [])))
               "teapot" []
               (Errorf_s "mysql: could not find offer with description %s" "teapot"));
    reflexivity.
Defined.

(** X28. The detail page of an offer id that no row matches is an error of
    code 500 whose cause is the not-found error of GetOffer, wrapped once by
    offerFromRequest; for an id that is stored the detail template gets the
    offer GetOffer returns. *)
Theorem detailHandler_of_missing_offer
        (Execute : app.Template -> app.Data -> option app.appError)
        (r : app.Request) (w : World) :
  fst (next_fault (DB w)) = None ->
  (~ stored (DB w) (app.Vars_offer_id r) ->
   exists e,
     fst (app.detailHandler Execute r w) = Ret (Some e) /\
     app.Code e = 500%Z /\
     app.Error e
     = Errorf_v "could not find offer: %v"
         (Errorf_s "mysql: could not find offer with id %s" (app.Vars_offer_id r))) /\
  (forall o,
     fst (GetOffer (app.Vars_offer_id r) (DB w)) = Ok o ->
     fst (app.detailHandler Execute r w) = Ret (Execute app.detailTmpl (app.OneOffer o))).
Proof.
  intros F. unfold app.detailHandler, app.offerFromRequest. split.
  - intros N.
    pose proof (GetOffer_miss (app.Vars_offer_id r) (DB w) F N) as E.
    destruct (GetOffer _ (DB w)) as [res db]. simpl in E. subst res.
    eexists. split; [reflexivity|]. split; reflexivity.
  - intros o H. destruct (GetOffer _ (DB w)) as [res db]. simpl in H. subst res.
    reflexivity.
Qed.

Lemma detailHandler_of_missing_offer_witness :
  fst (next_fault (DB (mkWorld fresh []))) = None /\
  exists e,
    fst (app.detailHandler renders (app.mkRequest None "nope") (mkWorld fresh []))
    = Ret (Some e) /\
    app.Code e = 500%Z /\
    app.Error e
    = Errorf_v "could not find offer: %v"
        (Errorf_s "mysql: could not find offer with id %s" "nope").
Proof.
  split; [reflexivity|].
  apply (proj1 (detailHandler_of_missing_offer renders (app.mkRequest None "nope")
                  (mkWorld fresh []) eq_refl)).
  intros (row & [] & _).
Defined.

(** X29. The update handler cannot answer a failed synchronisation with an
    error page.  Without MERCHANT_ID it panics; a value that is not a decimal
    int64 is an error of code 500 before anything is run; the value 0 ends
    the process; and whenever RunUpdate ends the process, so does the
    handler.  The success page is rendered exactly when RunUpdate returns. *)
Theorem updateHandler_outcomes
        (Execute : app.Template -> app.Data -> option app.appError)
        (service : content.APIService) (env : Env) (r : app.Request) (w : World) :
  let v := os_Getenv env app.merchantIDEnv in
  (v = "" ->
   app.updateHandler Execute service env r w
   = (Panicked "MERCHANT_ID environment variable not set.", w)) /\
  (forall err, v <> "" -> app.ParseInt v = Err err ->
     app.updateHandler Execute service env r w
     = (Ret (Some (app.mkAppError err (app.Sprintf "error while parsing merchant id") 500)), w)) /\
  (v <> "" -> app.ParseInt v = Ok 0%Z ->
   exists f, app.updateHandler Execute service env r w = (Exited f, w)) /\
  (forall id, v <> "" -> app.ParseInt v = Ok id ->
     kind (fst (app.updateHandler Execute service env r w))
     = kind (fst (RunUpdate service env id "" w)) /\
     (forall page, fst (app.updateHandler Execute service env r w) = Ret page ->
                   page = Execute app.updateSuccessTmpl app.NoData)).
Proof.
  cbv zeta. unfold app.updateHandler. split; [|split; [|split]].
  - intros ->. reflexivity.
  - intros err N P. apply String.eqb_neq in N. rewrite N, P. reflexivity.
  - intros N P. apply String.eqb_neq in N. rewrite N, P.
    destruct (RunUpdate_zero service env "" w) as [f E].
    rewrite E. eauto.
  - intros id N P. apply String.eqb_neq in N. rewrite N, P.
    destruct (RunUpdate service env id "" w) as [[u|msg|f] w1]; simpl.
    + split; [reflexivity|]. intros page H. injection H as <-. reflexivity.
    + split; [reflexivity | discriminate].
    + split; [reflexivity | discriminate].
Qed.

Lemma updateHandler_outcomes_witness :
  os_Getenv (site "0") app.merchantIDEnv <> "" /\
  app.ParseInt (os_Getenv (site "0") app.merchantIDEnv) = Ok 0%Z /\
  exists f,
    app.updateHandler renders (catalog two_pages) (site "0") (app.mkRequest None "")
                      (mkWorld fresh [])
    = (Exited f, mkWorld fresh []).
Proof.
  split; [discriminate|]. split; [reflexivity|].
  apply (proj1 (proj2 (proj2 (updateHandler_outcomes renders (catalog two_pages) (site "0")
                                (app.mkRequest None "") (mkWorld fresh [])))));
    [discriminate | reflexivity].
Defined.
